(** * Multipart upload core of minio-js: a shallow embedding

    The development follows the source file that defines
    [streamUpload], [calculatePartSize], [doPutObject] and
    [completeMultipartUpload].  Buffers are byte lists, JavaScript
    numbers that hold sizes and part numbers are integers of [Z], the
    header object of a request is a finite map from header names to
    values, and the callbacks [cb(e)] / [cb(null, v)] become a sum type.
    Everything the closures of [streamUpload] mutate lives in one
    explicit state record that is threaded through the per-block step. *)

From Equations Require Import Equations.
From stdpp Require Import base list strings gmap sorting.
From Stdlib Require Import ZArith Lia Ascii DecimalString.
From Stdlib Require DecimalPos DecimalZ.

Local Open Scope Z_scope.

(** ** JavaScript values that occur in the code *)

Definition bytes := list Byte.byte.

(** The values a header field, a content type or an entity tag can hold. *)
Inductive value : Type :=
  | VUndefined
  | VNull
  | VNum (n : Z)
  | VStr (s : string).

(** [a === b] on the values above. *)
Definition strictEq (a b : value) : bool :=
  match a, b with
  | VUndefined, VUndefined => true
  | VNull, VNull => true
  | VNum x, VNum y => x =? y
  | VStr x, VStr y => String.eqb x y
  | _, _ => false
  end.

(** Decimal rendering of an integer, which is what a template literal
    interpolates for a number of magnitude below 10^21; from 10^21 on
    JavaScript prints an exponent form, and the statements that name a
    rendered number say which range they cover. *)
Definition numberToString (n : Z) : string :=
  NilZero.string_of_int (Z.to_int n).

(** ** Part size *)

Definition minimumPartSize : Z := 5 * 1024 * 1024.
Definition maximumPartSize : Z := 5 * 1025 * 1024 * 1024.

(** [calculatePartSize]: [Math.floor(size / 9999)], the early return
    on the ceiling, then [Math.max] with the floor. *)
Definition calculatePartSize (size : Z) : Z :=
  let partSize := size / 9999 in
  if maximumPartSize <? partSize then maximumPartSize
  else Z.max minimumPartSize partSize.

(** The rule as the specification words it: the candidate, raised to the
    floor and clamped above by the ceiling. *)
Definition specPartSize (size : Z) : Z :=
  Z.min maximumPartSize (Z.max minimumPartSize (size / 9999)).

(** ** Re-chunking: BlockStream2 with [zeroPadding: false]

    The block stream buffers what it receives, pushes a block of exactly
    [size] bytes while at least [size] bytes are buffered, and on flush
    pushes what is left only when some byte is left.  Chunk boundaries
    of the input are erased by the buffering, so the input stream is
    the byte sequence it delivers.  The size that [streamUpload] passes is
    a part size, which is positive; a size that is not positive is given
    the buffer unsplit, and no statement below relies on it. *)
Equations? BlockStream2 (size : Z) (buffered : bytes) : list bytes
  by wf (length buffered) lt :=
  BlockStream2 size buffered with Z_lt_le_dec 0 size => {
    | left Hpos with Z_le_gt_dec size (Z.of_nat (length buffered)) => {
        | left Hfull :=
            take (Z.to_nat size) buffered
              :: BlockStream2 size (drop (Z.to_nat size) buffered);
        | right _ :=
            if Z.of_nat (length buffered) =? 0 then [] else [buffered] };
    | right _ := [buffered] }.
Proof.
  rewrite length_drop. lia.
Qed.

(** ** Strings *)

Definition lowerAscii (c : ascii) : ascii :=
  let n := N_of_ascii c in
  if ((65 <=? n) && (n <=? 90))%N then ascii_of_N (n + 32) else c.

(** [String.prototype.toLowerCase] on the ASCII range, which is where
    hexadecimal digests live. *)
Fixpoint toLowerCase (s : string) : string :=
  match s with
  | EmptyString => EmptyString
  | String c rest => String (lowerAscii c) (toLowerCase rest)
  end.

(** Truthiness, as [if (part)] tests it. *)
Definition truthy (v : value) : bool :=
  match v with
  | VUndefined | VNull => false
  | VNum n => negb (n =? 0)
  | VStr s => negb (String.eqb s "")
  end.

(** What a template literal interpolates for a value. *)
Definition toString (v : value) : string :=
  match v with
  | VUndefined => "undefined"
  | VNull => "null"
  | VNum n => numberToString n
  | VStr s => s
  end.

(** ** Requests, responses and callbacks *)

Record params : Type := {
  host : string;
  port : Z;
  protocol : string;
  accessKey : string;
  secretKey : string
}.

(** The request descriptor handed to the signer and to the transport.
    [headers] is [None] where the object literal has no such field. *)
Record requestParams : Type := {
  rp_host : string;
  rp_port : Z;
  rp_protocol : string;
  path : string;
  method : string;
  headers : option (gmap string value)
}.

(** What the code reads of a response: the status code and the
    [etag] header. *)
Record response : Type := {
  statusCode : Z;
  headers_etag : value
}.

(** The first argument of a callback: one of the string messages of
    this file, or the object the error parser builds. *)
Inductive error (D : Type) : Type :=
  | Msg (s : string)
  | Domain (d : D).
Arguments Msg {D} s.
Arguments Domain {D} d.

(** [if (e)] on an error value: only the empty string is falsy. *)
Definition errTruthy {D} (e : error D) : bool :=
  match e with
  | Msg s => negb (String.eqb s "")
  | Domain _ => true
  end.

(** [cb(e)] against [cb(null, v)]. *)
Inductive result (E A : Type) : Type :=
  | Err (e : E)
  | Ok (a : A).
Arguments Err {E A} e.
Arguments Ok {E A} a.

#[local] Set Warnings "-register-all".

(** The argument of the [xml] serializer: an element with child
    elements, or an element with a scalar content. *)
Inductive xmlObj : Type :=
  | XElement (name : string) (children : list xmlObj)
  | XText (name : string) (content : value).

(** What reaches the signer and the wire, in order. *)
Inductive wireEvent : Type :=
  | Signed (rp : requestParams) (payloadHash : string) (ak sk : string)
  | Request (rp : requestParams) (body : bytes).

(** The collaborators of the upload core that live in other modules:
    the signer, the error parser, the path escaping, the digests of
    [Crypto] and the [xml] serializer. *)
Class Services : Type := {
  DomainError : Type;
  signV4 : requestParams -> string -> string -> string -> requestParams;
  parseError : response -> DomainError;
  uriResourceEscape : string -> string;
  digest : string -> string -> bytes -> string;
  Xml : xmlObj -> string
}.

(** The transport answers a signed request and its body with a response. *)
Definition transportT : Type := requestParams -> bytes -> response.

(** A readable stream as [doPutObject] consumes it: the chunks it
    delivers and, when it breaks before its end, the error it emits. *)
Record readable `{SV : Services} : Type := {
  chunks : list bytes;
  failure : option (error DomainError)
}.

(** A [Stream.Readable] onto which one buffer and then the end marker
    were pushed. *)
Definition bufferOf `{SV : Services} (data : bytes) : readable :=
  {| chunks := [data]; failure := None |}.

(** An entry of a manifest: [{part: ..., etag: ...}].  The records of
    the resume manifest are read through [etag] only. *)
Record partEntry : Type := {
  part : Z;
  etag : value
}.

Section UploadCore.
Context `{SV : Services}.

Abbreviation error := (error DomainError).

Variable transport : transportT.
Variable prm : params.
Variables bucket key : string.

(** *** doPutObject

    The model follows the source for a payload of at least one byte,
    which is all [streamUpload] ever hands over.  For a payload without
    any byte the concatenating stream hands the callback an empty array:
    a declared size other than 0 is reported as a size mismatch, as
    below, but with a declared size of 0 the source throws inside
    [hash256.update] and neither signs, sends nor calls back; the
    statements about the request of [doPutObject] are made for payloads
    that are not empty. *)

Definition sizeMismatchPart : string := "actual size !== specified size".

Definition doPutObject (contentType : value) (size : Z) (uploadId : string)
    (part : value) (r : readable) : result error value * list wireEvent :=
  let query :=
    if truthy part
    then "?partNumber=" +:+ toString part +:+ "&uploadId=" +:+ uploadId
    else "" in
  let contentType :=
    if strictEq contentType VNull || strictEq contentType (VStr "")
    then VStr "application/octet-stream"
    else contentType in
  match failure r with
  | Some e => (Err e, [])
  | None =>
      let data := concat (chunks r) in
      if negb (Z.of_nat (length data) =? size)
      then (Err (Msg sizeMismatchPart), [])
      else
        let sha256 := toLowerCase (digest "sha256" "hex" data) in
        let md5 := digest "md5" "base64" data in
        let requestParams := {|
          rp_host := host prm;
          rp_port := port prm;
          rp_protocol := protocol prm;
          path := "/" +:+ bucket +:+ "/" +:+ uriResourceEscape key +:+ query;
          method := "PUT";
          headers := Some (<["Content-Length" := VNum size]>
                          (<["Content-Type" := contentType]>
                          (<["Content-MD5" := VStr md5]> ∅)))
        |} in
        let signed :=
          signV4 requestParams sha256 (accessKey prm) (secretKey prm) in
        let response := transport signed data in
        (if negb (statusCode response =? 200)
         then Err (Domain (parseError response))
         else Ok (headers_etag response),
         [Signed requestParams sha256 (accessKey prm) (secretKey prm);
          Request signed data])
  end.

(** *** completeMultipartUpload *)

(** The [payloadObject]: one [Part] per manifest entry, pushed in the
    order [forEach] visits the manifest. *)
Definition payloadObject (etags : list partEntry) : xmlObj :=
  let parts :=
    map (fun element =>
           XElement "Part" [XText "PartNumber" (VNum (part element));
                            XText "ETag" (etag element)]) etags in
  XElement "CompleteMultipartUpload" parts.

Definition completeMultipartUpload (uploadId : string)
    (etags : list partEntry) : result error unit * list wireEvent :=
  let requestParams := {|
    rp_host := host prm;
    rp_port := port prm;
    rp_protocol := protocol prm;
    path := "/" +:+ bucket +:+ "/" +:+ uriResourceEscape key
                +:+ "?uploadId=" +:+ uploadId;
    method := "POST";
    headers := None
  |} in
  let payload := Xml (payloadObject etags) in
  let body := String.list_byte_of_string payload in
  let sha256 := toLowerCase (digest "sha256" "hex" body) in
  let signed :=
    signV4 requestParams sha256 (accessKey prm) (secretKey prm) in
  let response := transport signed body in
  (if negb (statusCode response =? 200)
   then Err (Domain (parseError response))
   else Ok tt,
   [Signed requestParams sha256 (accessKey prm) (secretKey prm);
    Request signed body]).

(** *** streamUpload *)

Definition sizeMismatch : string :=
  "actual size does not match specified size".

(** What one run does that an observer can see: a record shifted off
    the resume manifest together with the block whose MD5 is computed
    and compared with it, and a call of [doPutObject] with what it put
    on the wire and what it called back. *)
Inductive upEvent : Type :=
  | Hashed (curPart : Z) (curJob : partEntry) (data : bytes)
  | Uploaded (curPart : Z) (data : bytes) (wire : list wireEvent)
             (outcome : result error value).

(** The variables the closures of [streamUpload] share; [st_part] is
    the counter [part].  [partsArray] is the caller's array, which
    [shift] mutates in place. *)
Record uploadState : Type := {
  st_part : Z;
  errored : option error;
  etags : list partEntry;
  totalSeen : Z;
  partsArray : list partEntry;
  trace : list upEvent
}.

(** [if (errored)] *)
Definition isErrored (st : uploadState) : bool :=
  match errored st with
  | Some e => errTruthy e
  | None => false
  end.

Definition latch (e : error) (st : uploadState) : uploadState :=
  {| st_part := st_part st; errored := Some e; etags := etags st;
     totalSeen := totalSeen st; partsArray := partsArray st;
     trace := trace st |}.

Definition pushEtag (entry : partEntry) (st : uploadState) : uploadState :=
  {| st_part := st_part st; errored := errored st;
     etags := etags st ++ [entry];
     totalSeen := totalSeen st; partsArray := partsArray st;
     trace := trace st |}.

Definition record (ev : upEvent) (st : uploadState) : uploadState :=
  {| st_part := st_part st; errored := errored st; etags := etags st;
     totalSeen := totalSeen st; partsArray := partsArray st;
     trace := trace st ++ [ev] |}.

(** [totalSeen += data.length; part = part + 1] *)
Definition advance (len : Z) (st : uploadState) : uploadState :=
  {| st_part := st_part st + 1; errored := errored st; etags := etags st;
     totalSeen := totalSeen st + len; partsArray := partsArray st;
     trace := trace st |}.

(** [partsArray.shift()] *)
Definition shifted (rest : list partEntry) (st : uploadState) : uploadState :=
  {| st_part := st_part st; errored := errored st; etags := etags st;
     totalSeen := totalSeen st; partsArray := rest;
     trace := trace st |}.

Variable contentType : value.
Variable uploadId : string.

(** The call of [doPutObject] on a fresh stream over [data], and its
    callback. *)
Definition uploadPart (curPart : Z) (data : bytes) (st : uploadState)
    : uploadState :=
  let dataStream := bufferOf data in
  let '(outcome, wire) :=
    doPutObject contentType (Z.of_nat (length data)) uploadId
                (VNum curPart) dataStream in
  let st := record (Uploaded curPart data wire outcome) st in
  if isErrored st then st
  else match outcome with
       | Err e =>
           if errTruthy e then latch e st
           else pushEtag {| part := curPart; etag := VUndefined |} st
       | Ok etag => pushEtag {| part := curPart; etag := etag |} st
       end.

(** The transform function of the [Through2] stage, for one block. *)
Definition transform (partSize totalSize : Z) (st : uploadState)
    (data : bytes) : uploadState :=
  if isErrored st then st
  else
    let len := Z.of_nat (length data) in
    if (len <? partSize) && negb (totalSize - totalSeen st =? len)
    then latch (Msg sizeMismatch) st
    else
      let curPart := st_part st in
      let st := advance len st in
      match partsArray st with
      | curJob :: rest =>
          let st := shifted rest st in
          let md5 := toLowerCase (digest "md5" "hex" data) in
          let st := record (Hashed curPart curJob data) st in
          if strictEq (etag curJob) (VStr md5)
          then pushEtag {| part := curPart; etag := VStr md5 |} st
          else uploadPart curPart data st
      | [] => uploadPart curPart data st
      end.

(** The flush function of the [Through2] stage: what [cb] receives. *)
Definition flush (totalSize : Z) (st : uploadState)
    : result error (list partEntry) :=
  match errored st with
  | Some e =>
      if errTruthy e then Err e
      else if negb (totalSeen st =? totalSize) then Err (Msg sizeMismatch)
      else Ok (etags st)
  | None =>
      if negb (totalSeen st =? totalSize) then Err (Msg sizeMismatch)
      else Ok (etags st)
  end.

Definition initialState (partsArray : list partEntry) : uploadState :=
  {| st_part := 1; errored := None; etags := []; totalSeen := 0;
     partsArray := partsArray; trace := [] |}.

(** The blocks go through [transform] one at a time, each one after
    the [done()] of the one before. *)
Definition processBlocks (partSize totalSize : Z) (st : uploadState)
    (blocks : list bytes) : uploadState :=
  fold_left (transform partSize totalSize) blocks st.

Definition streamUpload (partsArray : list partEntry) (totalSize : Z)
    (r : bytes) : result error (list partEntry) * uploadState :=
  let partSize := calculatePartSize totalSize in
  let st := processBlocks partSize totalSize (initialState partsArray)
                          (BlockStream2 partSize r) in
  (flush totalSize st, st).

End UploadCore.

(** ** Reading a run *)

(** The two messages by which the code reports that the declared and the
    actual length disagree: the whole-object one of [streamUpload] and
    the per-part one of [doPutObject]. *)
Definition SizeMismatchError {D} (e : error D) : Prop :=
  e = Msg sizeMismatch \/ e = Msg sizeMismatchPart.

(** The request descriptor as [doPutObject] built it, before the signer
    touched it. *)
Definition builtRequest (wire : list wireEvent) : option requestParams :=
  match wire with
  | Signed rp _ _ _ :: _ => Some rp
  | _ => None
  end.

(** The requests that went to the transport. *)
Definition sentRequests (wire : list wireEvent) : list requestParams :=
  omap (fun ev => match ev with
                  | Request rp _ => Some rp
                  | Signed _ _ _ _ => None
                  end) wire.

Definition headerOf (name : string) (rp : requestParams) : option value :=
  headers rp ≫= (fun h => h !! name).

(** The [PartNumber] contents of a completion document, in document
    order. *)
Definition partNumbersOfPart (p : xmlObj) : list value :=
  match p with
  | XElement name children =>
      if String.eqb name "Part"
      then omap (fun c => match c with
                          | XText n v =>
                              if String.eqb n "PartNumber" then Some v else None
                          | XElement _ _ => None
                          end) children
      else []
  | XText _ _ => []
  end.

Definition documentPartNumbers (doc : xmlObj) : list value :=
  match doc with
  | XElement _ parts => concat (map partNumbersOfPart parts)
  | XText _ _ => []
  end.

(** The lower-cased hexadecimal MD5 of a block, as [transform] computes
    it for the resume comparison. *)
Definition md5Hex `{SV : Services} (data : bytes) : string :=
  toLowerCase (digest "md5" "hex" data).

Section ReadingARun.
Context `{SV : Services}.

Definition eventPart (ev : upEvent) : Z :=
  match ev with
  | Hashed curPart _ _ => curPart
  | Uploaded curPart _ _ _ => curPart
  end.

Definition wireOf (ev : upEvent) : list wireEvent :=
  match ev with
  | Hashed _ _ _ => []
  | Uploaded _ _ wire _ => wire
  end.

(** Everything a run put before the signer and on the wire. *)
Definition wireTrace (tr : list upEvent) : list wireEvent :=
  concat (map wireOf tr).

(** No call of [doPutObject] in the trace called back an error. *)
Definition noFailedUpload (tr : list upEvent) : Prop :=
  forall k data wire e, Uploaded k data wire (Err e) ∉ tr.

(** The entry a resumed part gets: its number and the stored tag. *)
Definition resumedEntries (jobs : list partEntry) : list partEntry :=
  imap (fun i job => {| part := Z.of_nat i + 1; etag := etag job |}) jobs.

End ReadingARun.

(** ** One block through [transform], case by case *)

Section TransformStep.
Context `{SV : Services}.
Variable transport : transportT.
Variable prm : params.
Variables bucket key : string.
Variable contentType : value.
Variable uploadId : string.
Variables partSize totalSize : Z.

Definition blockLength (data : bytes) : Z := Z.of_nat (length data).

(** The short-block test of [transform] lets the block through. *)
Definition sizeAccepted (st : uploadState) (data : bytes) : Prop :=
  partSize <= blockLength data
  \/ totalSize - totalSeen st = blockLength data.

(** The state in which a block that is not resumed reaches
    [doPutObject]: counters advanced, and the head of the resume
    manifest, when there is one, shifted off and compared. *)
Inductive towardsUpload (st : uploadState) (data : bytes)
    : uploadState -> Prop :=
  | towards_exhausted :
      partsArray st = [] ->
      towardsUpload st data (advance (blockLength data) st)
  | towards_differs curJob rest :
      partsArray st = curJob :: rest ->
      etag curJob <> VStr (md5Hex data) ->
      towardsUpload st data
        (record (Hashed (st_part st) curJob data)
           (shifted rest (advance (blockLength data) st))).

(** The five ways a block leaves [transform]. *)
Inductive transformStep (st : uploadState) (data : bytes)
    : uploadState -> Prop :=
  | step_skipped :
      isErrored st = true ->
      transformStep st data st
  | step_mismatch :
      isErrored st = false ->
      blockLength data < partSize ->
      totalSize - totalSeen st <> blockLength data ->
      transformStep st data (latch (Msg sizeMismatch) st)
  | step_resumed curJob rest :
      isErrored st = false ->
      sizeAccepted st data ->
      partsArray st = curJob :: rest ->
      etag curJob = VStr (md5Hex data) ->
      transformStep st data
        (pushEtag {| part := st_part st; etag := etag curJob |}
           (record (Hashed (st_part st) curJob data)
              (shifted rest (advance (blockLength data) st))))
  | step_uploaded st1 tag wire :
      isErrored st = false ->
      sizeAccepted st data ->
      towardsUpload st data st1 ->
      doPutObject transport prm bucket key contentType (blockLength data)
                  uploadId (VNum (st_part st)) (bufferOf data)
      = (Ok tag, wire) ->
      transformStep st data
        (pushEtag {| part := st_part st; etag := tag |}
           (record (Uploaded (st_part st) data wire (Ok tag)) st1))
  | step_failed st1 d wire :
      isErrored st = false ->
      sizeAccepted st data ->
      towardsUpload st data st1 ->
      doPutObject transport prm bucket key contentType (blockLength data)
                  uploadId (VNum (st_part st)) (bufferOf data)
      = (Err (Domain d), wire) ->
      transformStep st data
        (latch (Domain d)
           (record (Uploaded (st_part st) data wire (Err (Domain d))) st1)).

End TransformStep.

(** ** What holds of the state after every block *)

Section Invariants.
Context `{SV : Services}.

(** [jobs0] is the resume manifest as the caller passed it and [done]
    the blocks that went through [transform] so far.  The part counter
    is one more than the number of blocks let through, the manifest has
    lost exactly that many records from its head, and as long as no
    error is latched every block was let through, counted and entered. *)
Definition counted (jobs0 : list partEntry) (done : list bytes)
    (st : uploadState) : Prop :=
  1 <= st_part st <= 1 + Z.of_nat (length done)
  /\ partsArray st = drop (Z.to_nat (st_part st - 1)) jobs0
  /\ (isErrored st = false ->
        st_part st = 1 + Z.of_nat (length done)
        /\ totalSeen st = Z.of_nat (length (concat done))
        /\ part <$> etags st = seqZ 1 (Z.of_nat (length done))).

(** The latch holds nothing while no upload has failed; once set it
    holds either the size message, or the error that the last event of
    the trace, a failed upload, called back. *)
Definition latched (st : uploadState) : Prop :=
  match errored st with
  | None => noFailedUpload (trace st)
  | Some e =>
      errTruthy e = true
      /\ ((e = Msg sizeMismatch /\ noFailedUpload (trace st))
          \/ exists pre k data wire,
               trace st = pre ++ [Uploaded k data wire (Err e)]
               /\ noFailedUpload pre
               /\ st_part st = k + 1)
  end.

(** Every event of the trace is about a part already numbered. *)
Definition traceBounded (st : uploadState) : Prop :=
  forall ev, ev ∈ trace st -> 1 <= eventPart ev < st_part st.

(** The record compared with block number k is record number k. *)
Definition hashedInOrder (jobs0 : list partEntry) (done : list bytes)
    (st : uploadState) : Prop :=
  forall k curJob data,
    Hashed k curJob data ∈ trace st ->
    jobs0 !! Z.to_nat (k - 1) = Some curJob
    /\ done !! Z.to_nat (k - 1) = Some data.

(** Every request a run builds is a PUT. *)
Definition onlyPuts (tr : list upEvent) : Prop :=
  forall rp h ak sk, Signed rp h ak sk ∈ wireTrace tr -> method rp = "PUT".

(** With the first [K] records matching the first [K] blocks: no
    upload for a part up to [K], and the manifest starts with the
    stored tags. *)
Definition resumedPrefix (K : nat) (jobs0 : list partEntry)
    (done : list bytes) (st : uploadState) : Prop :=
  (forall k data wire outcome,
      Uploaded k data wire outcome ∈ trace st -> Z.of_nat K < k)
  /\ (isErrored st = false ->
        take K (etags st)
        = take (length done) (resumedEntries (take K jobs0))).

End Invariants.

(** ** Opening an upload session: initiateNewMultipartUpload *)

(** What the code reads of a child of the parsed root: [element.name]
    and [element.content]. *)
Record xmlElement : Type := {
  name : string;
  content : string
}.

(** A transport whose response is read to its end: the response and the
    text of its body. *)
Definition bodyTransportT : Type := requestParams -> bytes -> response * string.

Section Initiate.
Context `{SV : Services}.

(** [ParseXml(xml.toString())], as far as the code reads it: the
    children of the root when the document has a root, and nothing when
    it has none ([parsedXml.root] is then undefined). *)
Variable ParseXml : string -> option (list xmlElement).

Variable transport : bodyTransportT.
Variable prm : params.
Variables bucket key : string.

Definition noUploadId : string := "unable to get upload id".

(** The [forEach] over the children of the root: every child named
    UploadId overwrites what an earlier one left. *)
Definition findUploadId (children : list xmlElement) : option string :=
  fold_left (fun uploadId element =>
               if String.eqb (name element) "UploadId"
               then Some (content element)
               else uploadId) children None.

(** What [cb] receives, when it is called at all: without a root,
    [parsedXml.root.children] throws inside the callback of the body and
    [cb] is never called, which is [None]. *)
Definition initiateNewMultipartUpload (contentType : value)
    : option (result (error DomainError) string) * list wireEvent :=
  let requestParams := {|
    rp_host := host prm;
    rp_port := port prm;
    rp_protocol := protocol prm;
    path := "/" +:+ bucket +:+ "/" +:+ uriResourceEscape key +:+ "?uploads";
    method := "POST";
    headers := Some (<["Content-Type" := contentType]> ∅)
  |} in
  let signed := signV4 requestParams "" (accessKey prm) (secretKey prm) in
  let '(response, xml) := transport signed [] in
  (if negb (statusCode response =? 200)
   then Some (Err (Domain (parseError response)))
   else
     match ParseXml xml with
     | None => None
     | Some children =>
         match findUploadId children with
         | Some uploadId =>
             if negb (String.eqb uploadId "") then Some (Ok uploadId)
             else Some (Err (Msg noUploadId))
         | None => Some (Err (Msg noUploadId))
         end
     end,
   [Signed requestParams "" (accessKey prm) (secretKey prm);
    Request signed []]).

End Initiate.

(** ** More of what holds of the state after every block *)

Section MoreInvariants.
Context `{SV : Services}.
Variable transport : transportT.
Variable prm : params.
Variables bucket key : string.
Variable contentType : value.
Variable uploadId : string.

(** The part numbers [doPutObject] was called for, in the order of the
    calls. *)
Definition uploadedParts (tr : list upEvent) : list Z :=
  omap (fun ev => match ev with
                  | Uploaded k _ _ _ => Some k
                  | Hashed _ _ _ => None
                  end) tr.

(** Every call of [doPutObject] in the trace was made for block number
    k as part number k, with the length of the block as declared size,
    and the trace holds what that call put on the wire and called back. *)
Definition uploadsFaithful (done : list bytes) (st : uploadState) : Prop :=
  forall k data wire outcome,
    Uploaded k data wire outcome ∈ trace st ->
    1 <= k
    /\ done !! Z.to_nat (k - 1) = Some data
    /\ doPutObject transport prm bucket key contentType (blockLength data)
                   uploadId (VNum k) (bufferOf data) = (outcome, wire).

(** Every entry of the manifest has a reason in the trace: a record
    whose tag is the MD5 of the block, or an upload that called back
    the tag. *)
Definition entriesJustified (st : uploadState) : Prop :=
  forall entry, entry ∈ etags st ->
    (exists curJob data,
        Hashed (part entry) curJob data ∈ trace st
        /\ etag curJob = etag entry
        /\ etag entry = VStr (md5Hex data))
    \/ (exists data wire,
        Uploaded (part entry) data wire (Ok (etag entry)) ∈ trace st).

(** The calls of [doPutObject] go up in part number, below the counter. *)
Definition uploadsAscending (st : uploadState) : Prop :=
  StronglySorted Z.lt (uploadedParts (trace st))
  /\ (forall k, k ∈ uploadedParts (trace st) -> k < st_part st).

End MoreInvariants.

(** ** A mock server *)

(** Stand-ins for the collaborators: the signer leaves the request as it
    is, the error parser keeps the status code, keys are escaped to
    themselves, and a digest is a tag followed by the number of bytes. *)
Definition mockServices : Services := {|
  DomainError := Z;
  signV4 := fun rp _ _ _ => rp;
  parseError := statusCode;
  uriResourceEscape := fun k => k;
  digest := fun alg enc data =>
    alg +:+ "-" +:+ enc +:+ "-" +:+ numberToString (Z.of_nat (length data));
  Xml := fun _ => "<CompleteMultipartUpload/>"
|}.

Definition acceptingTransport : transportT :=
  fun _ _ => {| statusCode := 200; headers_etag := VStr "etag-from-server" |}.

Definition rejectingTransport : transportT :=
  fun _ _ => {| statusCode := 500; headers_etag := VUndefined |}.

Definition mockParams : params :=
  {| host := "localhost"; port := 9000; protocol := "http:";
     accessKey := "access"; secretKey := "secret" |}.

(** Sample inputs: a three-byte stream, and a block of exactly the
    minimum part size. *)
Definition sampleBlock : bytes := [Byte.x61; Byte.x62; Byte.x63].

Definition fullBlock : bytes := replicate (Z.to_nat minimumPartSize) Byte.x00.

(** The record a finished part with the bytes [data] left at the mock
    server: its number and the MD5 of its bytes as the tag. *)
Definition storedPart (n : Z) (data : bytes) : partEntry :=
  {| part := n; etag := VStr (md5Hex (SV := mockServices) data) |}.

(** The mock server's answers to a session-open request: a document
    whose root holds an UploadId, one whose root holds none, and a
    refusal.  The mock parser reads a text that starts with id: as a root
    whose UploadId child holds the rest of the text, the empty text as a
    document without a root, and any other text as a root with one child
    of another name. *)
Definition mockParseXml (xml : string) : option (list xmlElement) :=
  match xml with
  | EmptyString => None
  | String "i" (String "d" (String ":" rest)) =>
      Some [ {| name := "Bucket"; content := "bucket" |};
             {| name := "UploadId"; content := rest |} ]
  | _ => Some [ {| name := "Bucket"; content := "bucket" |} ]
  end.

Definition openingTransport : bodyTransportT :=
  fun _ _ => ({| statusCode := 200; headers_etag := VUndefined |},
              "id:upload-1").

(** A mock server that accepts every part but the second, and a resume
    manifest of three records whose tags match no block. *)
Definition secondPartPath : string :=
  "/bucket/key?partNumber=2&uploadId=upload-1".

Definition rejectingSecondPart : transportT :=
  fun rp _ =>
    if String.eqb (path rp) secondPartPath
    then {| statusCode := 500; headers_etag := VUndefined |}
    else {| statusCode := 200; headers_etag := VStr "etag-from-server" |}.

Definition staleManifest : list partEntry :=
  [ {| part := 1; etag := VStr "stale" |};
    {| part := 2; etag := VStr "stale" |};
    {| part := 3; etag := VStr "stale" |} ].

(** ** Values *)

Lemma strictEq_eq a b : strictEq a b = true <-> a = b.
Proof.
  destruct a, b; simpl; split; intros H; try discriminate; try reflexivity.
  - apply Z.eqb_eq in H. by subst.
  - inversion H. apply Z.eqb_refl.
  - apply String.eqb_eq in H. by subst.
  - inversion H. apply String.eqb_refl.
Qed.

(** ** The part-size calculator *)

(** C2. For every non-negative total size the calculator returns the
    candidate floor(S/9999) raised to 5 MiB and clamped by the ceiling
    5*1025*1024*1024: exactly 5 MiB when the candidate is at most 5 MiB
    (in particular when S itself is), exactly 10 MiB at S = 9999 * 10 MiB,
    exactly the ceiling when the candidate exceeds it, and always a value
    between 5 MiB and the ceiling. *)
Theorem calculatePartSize_spec (S : Z) (HS : 0 <= S) :
  calculatePartSize S = specPartSize S
  /\ (S / 9999 <= minimumPartSize -> calculatePartSize S = minimumPartSize)
  /\ (S <= minimumPartSize -> calculatePartSize S = minimumPartSize)
  /\ calculatePartSize (9999 * (10 * 1024 * 1024)) = 10 * 1024 * 1024
  /\ (maximumPartSize < S / 9999 -> calculatePartSize S = maximumPartSize)
  /\ minimumPartSize <= calculatePartSize S <= maximumPartSize.
Proof.
  assert (Hq : 0 <= S / 9999) by (apply Z.div_pos; lia).
  assert (Hle : S / 9999 <= S) by (apply Z.div_le_upper_bound; lia).
  unfold calculatePartSize, specPartSize, minimumPartSize, maximumPartSize in *.
  split_and!; try reflexivity;
    destruct (Z.ltb_spec (5 * 1025 * 1024 * 1024) (S / 9999)); lia.
Qed.

Lemma calculatePartSize_spec_witness :
  0 <= 11534336 /\ calculatePartSize 11534336 = specPartSize 11534336.
Proof.
  split; [lia | apply (proj1 (calculatePartSize_spec 11534336 ltac:(lia)))].
Defined.

(** ** The part uploader *)

Section DoPutObject.
Context `{SV : Services}.
Variable transport : transportT.
Variable prm : params.
Variables bucket key : string.

(** A stream that breaks before its end is reported as it is, and
    nothing is built. *)
Lemma doPutObject_stream_error contentType size uploadId part cs e :
  doPutObject transport prm bucket key contentType size uploadId part
              {| chunks := cs; failure := Some e |} = (Err e, []).
Proof. reflexivity. Qed.

(** With the lengths equal, the signer is called once and the signed
    request goes to the transport once, with the buffer as its body. *)
Lemma doPutObject_wire contentType uploadId part (data : bytes) :
  exists rp,
    snd (doPutObject transport prm bucket key contentType
           (Z.of_nat (length data)) uploadId part (bufferOf data))
    = [Signed rp (toLowerCase (digest "sha256" "hex" data))
              (accessKey prm) (secretKey prm);
       Request (signV4 rp (toLowerCase (digest "sha256" "hex" data))
                       (accessKey prm) (secretKey prm)) data]
    /\ method rp = "PUT".
Proof.
  unfold doPutObject, bufferOf. simpl. rewrite app_nil_r, Z.eqb_refl. simpl.
  eexists. split; reflexivity.
Qed.

(** What [doPutObject] calls back on a buffer of the declared length:
    the parsed error of a response whose status is not 200, else the
    entity tag of the response. *)
Lemma doPutObject_callback contentType uploadId part (data : bytes) :
  exists rp,
    fst (doPutObject transport prm bucket key contentType
           (Z.of_nat (length data)) uploadId part (bufferOf data))
    = if negb (statusCode (transport rp data) =? 200)
      then Err (Domain (parseError (transport rp data)))
      else Ok (headers_etag (transport rp data)).
Proof.
  unfold doPutObject, bufferOf. simpl. rewrite app_nil_r, Z.eqb_refl. simpl.
  eexists. reflexivity.
Qed.

Lemma doPutObject_outcome contentType uploadId part (data : bytes) :
  (exists rp,
      fst (doPutObject transport prm bucket key contentType
             (Z.of_nat (length data)) uploadId part (bufferOf data))
      = Err (Domain (parseError (transport rp data))))
  \/ (exists v,
      fst (doPutObject transport prm bucket key contentType
             (Z.of_nat (length data)) uploadId part (bufferOf data))
      = Ok v).
Proof.
  destruct (doPutObject_callback contentType uploadId part data)
    as [rp ->].
  destruct (negb _); [left | right]; eexists; reflexivity.
Qed.

End DoPutObject.

(** C6. When the buffered payload of a call to [doPutObject] has a length
    other than the declared one, the call fails with the size-mismatch
    error and nothing is built, signed or sent; whenever something is
    signed or sent the two lengths were equal; and a payload of at least
    one byte whose length is the declared one is sent. *)
Theorem doPutObject_size_check `{SV : Services} (transport : transportT)
    (prm : params) (bucket key : string) (contentType : value) (size : Z)
    (uploadId : string) (part : value) (cs : list bytes) :
  let run := doPutObject transport prm bucket key contentType size uploadId
                         part {| chunks := cs; failure := None |} in
  (Z.of_nat (length (concat cs)) <> size ->
     (exists e, fst run = Err e /\ SizeMismatchError e) /\ snd run = [])
  /\ (snd run <> [] -> Z.of_nat (length (concat cs)) = size)
  /\ (concat cs <> [] -> Z.of_nat (length (concat cs)) = size ->
        exists rp, sentRequests (snd run) = [rp]).
Proof.
  unfold doPutObject. cbn [failure chunks].
  destruct (Z.eqb_spec (Z.of_nat (length (concat cs))) size) as [Heq | Hne];
    cbn [negb fst snd].
  - split_and!.
    + intros Hne. contradiction.
    + intros _. exact Heq.
    + intros _ _. eexists. reflexivity.
  - split_and!.
    + intros _. split; [| reflexivity].
      exists (Msg sizeMismatchPart). split; [reflexivity | by right].
    + intros Hwire. contradiction.
    + intros _ Heq. contradiction.
Qed.

Lemma doPutObject_size_check_witness :
  (Z.of_nat (length (concat [[Byte.x61; Byte.x62]])) <> 3
   /\ snd (doPutObject (SV := mockServices) acceptingTransport mockParams
             "bucket" "key" VNull 3
             "upload-1" (VNum 1)
             {| chunks := [[Byte.x61; Byte.x62]]; failure := None |}) = [])
  /\ (concat [[Byte.x61]; [Byte.x62]] <> []
      /\ Z.of_nat (length (concat [[Byte.x61]; [Byte.x62]])) = 2
      /\ exists rp,
           sentRequests
             (snd (doPutObject (SV := mockServices) acceptingTransport
                     mockParams "bucket" "key" VNull 2 "upload-1" (VNum 1)
                     {| chunks := [[Byte.x61]; [Byte.x62]];
                        failure := None |})) = [rp]).
Proof.
  split.
  - split; [vm_compute; lia |].
    apply (proj1 (doPutObject_size_check (SV := mockServices)
                    acceptingTransport mockParams
                    "bucket" "key" VNull 3 "upload-1" (VNum 1)
                    [[Byte.x61; Byte.x62]])).
    vm_compute. lia.
  - split; [discriminate |]. split; [reflexivity |].
    apply (proj2 (proj2 (doPutObject_size_check (SV := mockServices)
                           acceptingTransport mockParams
                           "bucket" "key" VNull 2 "upload-1" (VNum 1)
                           [[Byte.x61]; [Byte.x62]]))).
    + discriminate.
    + reflexivity.
Defined.




(** The content type that is defaulted is the one the guard names. *)
Lemma doPutObject_content_type `{SV : Services} (transport : transportT)
    (prm : params) (bucket key : string) (contentType : value)
    (uploadId : string) (part : value) (data : bytes) :
  builtRequest
    (snd (doPutObject transport prm bucket key contentType
            (Z.of_nat (length data)) uploadId part (bufferOf data)))
    ≫= headerOf "Content-Type"
  = Some (if strictEq contentType VNull || strictEq contentType (VStr "")
          then VStr "application/octet-stream" else contentType).
Proof.
  unfold doPutObject, bufferOf. cbn [failure chunks concat].
  rewrite app_nil_r, Z.eqb_refl. reflexivity.
Qed.

(** C8, as the claim states it, fails: a content type that is undefined
    is not replaced, the request carries undefined as its Content-Type. *)
Lemma doPutObject_undefined_content_type :
  let wire :=
    snd (doPutObject (SV := mockServices) acceptingTransport mockParams
           "bucket" "key" VUndefined 2 "upload-1" (VNum 1)
           (bufferOf [Byte.x61; Byte.x62])) in
  builtRequest wire ≫= headerOf "Content-Type" = Some VUndefined
  /\ builtRequest wire ≫= headerOf "Content-Type"
     <> Some (VStr "application/octet-stream")
  /\ (headerOf "Content-Type" <$> sentRequests wire) = [Some VUndefined].
Proof.
  split_and!; [reflexivity | vm_compute; discriminate | reflexivity].
Qed.

(** C8, amended. For a payload of the declared length that holds at least
    one byte: when the content type is null or the empty string the
    request carries Content-Type application/octet-stream; any other
    content type that is a string is carried unchanged. *)
Theorem doPutObject_content_type_default `{SV : Services}
    (transport : transportT) (prm : params) (bucket key : string)
    (contentType : value) (uploadId : string) (part : value) (data : bytes)
    (Hdata : data <> []) :
  let sent :=
    builtRequest
      (snd (doPutObject transport prm bucket key contentType
              (Z.of_nat (length data)) uploadId part (bufferOf data)))
      ≫= headerOf "Content-Type" in
  (contentType = VNull \/ contentType = VStr "" ->
     sent = Some (VStr "application/octet-stream"))
  /\ (forall s, contentType = VStr s -> s <> "" -> sent = Some (VStr s)).
Proof.
  intros sent. subst sent. rewrite doPutObject_content_type. split.
  - by intros [-> | ->].
  - intros s -> Hs. destruct s; [contradiction | reflexivity].
Qed.

Lemma doPutObject_content_type_default_witness :
  builtRequest
    (snd (doPutObject (SV := mockServices) acceptingTransport mockParams
            "bucket" "key" (VStr "") (Z.of_nat (length [Byte.x61]))
            "upload-1" (VNum 1) (bufferOf [Byte.x61])))
    ≫= headerOf "Content-Type"
  = Some (VStr "application/octet-stream").
Proof.
  apply (proj1 (doPutObject_content_type_default (SV := mockServices)
                  acceptingTransport mockParams "bucket" "key" (VStr "")
                  "upload-1" (VNum 1) [Byte.x61] ltac:(discriminate))).
  right. reflexivity.
Defined.

(** ** Re-chunking *)

Lemma BlockStream2_nil (size : Z) : 0 < size -> BlockStream2 size [] = [].
Proof.
  intros Hsize. rewrite BlockStream2_equation_1.
  unfold BlockStream2_unfold_clause_1.
  destruct (Z_lt_le_dec 0 size) as [Hpos | Hle]; [| lia].
  unfold BlockStream2_unfold_clause_1_clause_1.
  destruct (Z_le_gt_dec size (Z.of_nat (length (@nil Byte.byte)))) as [Hfull | Hgt];
    [simpl in Hfull; lia | reflexivity].
Qed.

Lemma BlockStream2_short (size : Z) (l : bytes) :
  l <> [] -> Z.of_nat (length l) < size -> BlockStream2 size l = [l].
Proof.
  intros Hne Hlt. rewrite BlockStream2_equation_1.
  unfold BlockStream2_unfold_clause_1.
  destruct (Z_lt_le_dec 0 size) as [Hpos | Hle]; [| lia].
  unfold BlockStream2_unfold_clause_1_clause_1.
  destruct (Z_le_gt_dec size (Z.of_nat (length l))) as [Hfull | Hgt]; [lia |].
  destruct l; [contradiction | reflexivity].
Qed.

Lemma BlockStream2_full (size : Z) (l : bytes) :
  0 < size -> size <= Z.of_nat (length l) ->
  BlockStream2 size l
  = take (Z.to_nat size) l :: BlockStream2 size (drop (Z.to_nat size) l).
Proof.
  intros Hsize Hfull. rewrite BlockStream2_equation_1 at 1.
  unfold BlockStream2_unfold_clause_1.
  destruct (Z_lt_le_dec 0 size) as [Hpos | Hle]; [| lia].
  unfold BlockStream2_unfold_clause_1_clause_1.
  destruct (Z_le_gt_dec size (Z.of_nat (length l))) as [Hfull' | Hgt]; [| lia].
  reflexivity.
Qed.

(** A buffer of exactly [size] bytes in front of a stream is its first
    block. *)
Lemma BlockStream2_app (size : Z) (b rest : bytes) :
  0 < size -> Z.of_nat (length b) = size ->
  BlockStream2 size (b ++ rest) = b :: BlockStream2 size rest.
Proof.
  intros Hsize Hlen.
  assert (Hn : Z.to_nat size = length b) by lia.
  rewrite BlockStream2_full; [| done | rewrite length_app; lia].
  rewrite Hn, take_app_length, drop_app_length. reflexivity.
Qed.

(** Re-chunking loses and invents no byte. *)
Lemma BlockStream2_concat (size : Z) (l : bytes) :
  0 < size -> concat (BlockStream2 size l) = l.
Proof.
  intros Hsize. revert l.
  apply (induction_ltof1 _ (@length Byte.byte)). intros l IH.
  unfold ltof in IH.
  destruct (Z_le_gt_dec size (Z.of_nat (length l))) as [Hfull | Hshort].
  - rewrite BlockStream2_full by done. cbn [concat].
    rewrite IH by (rewrite length_drop; lia).
    apply take_drop.
  - destruct l as [| c l].
    + by rewrite BlockStream2_nil.
    + rewrite BlockStream2_short by (done || lia). apply app_nil_r.
Qed.

(** Every block but the last has exactly [size] bytes; the last one has
    at least one byte and at most [size]. *)
Lemma BlockStream2_blocks (size : Z) (l : bytes) (front : list bytes)
    (b : bytes) (back : list bytes) :
  0 < size ->
  BlockStream2 size l = front ++ b :: back ->
  0 < Z.of_nat (length b) <= size
  /\ (back <> [] -> Z.of_nat (length b) = size).
Proof.
  intros Hsize. revert l front.
  apply (induction_ltof1 _ (@length Byte.byte)
           (fun l => forall front, _ -> _)). intros l IH.
  unfold ltof in IH. intros front.
  destruct (Z_le_gt_dec size (Z.of_nat (length l))) as [Hfull | Hshort].
  - rewrite BlockStream2_full by done.
    destruct front as [| f front]; cbn [app]; intros Heq;
      injection Heq as Hhd Htl.
    + subst b. rewrite length_take. lia.
    + eapply IH; [| exact Htl]. rewrite length_drop. lia.
  - destruct l as [| c l].
    + rewrite BlockStream2_nil by done.
      intros Heq. by destruct front.
    + rewrite BlockStream2_short by (done || lia).
      destruct front as [| f front]; cbn [app]; intros Heq;
        injection Heq as Hhd Htl.
      * subst. split; [cbn [length] in *; lia | done].
      * by destruct front.
Qed.

Lemma calculatePartSize_pos (totalSize : Z) : 0 < calculatePartSize totalSize.
Proof.
  unfold calculatePartSize, maximumPartSize, minimumPartSize.
  destruct (_ <? _); lia.
Qed.

(** ** The orchestrator, block by block *)

Section StreamUploadFacts.
Context `{SV : Services}.
Variable transport : transportT.
Variable prm : params.
Variables bucket key : string.
Variable contentType : value.
Variable uploadId : string.
Variables partSize totalSize : Z.

Local Abbreviation step :=
  (transform transport prm bucket key contentType uploadId
             partSize totalSize).
Local Abbreviation stepCase :=
  (transformStep transport prm bucket key contentType uploadId
                 partSize totalSize).
Local Abbreviation run :=
  (processBlocks transport prm bucket key contentType uploadId
                 partSize totalSize).

(** [doPutObject] on the buffer [streamUpload] hands it never calls
    back a string message: the declared size is the buffer's own. *)
Lemma doPutObject_in_stream curPart (data : bytes) :
  (exists d wire,
      doPutObject transport prm bucket key contentType (blockLength data)
                  uploadId (VNum curPart) (bufferOf data)
      = (Err (Domain d), wire))
  \/ (exists tag wire,
      doPutObject transport prm bucket key contentType (blockLength data)
                  uploadId (VNum curPart) (bufferOf data)
      = (Ok tag, wire)).
Proof.
  destruct (doPutObject_outcome transport prm bucket key contentType
              uploadId (VNum curPart) data) as [[rp Hfst] | [v Hfst]];
    unfold blockLength;
    destruct (doPutObject _ _ _ _ _ _ _ _ _) as [outcome wire];
    cbn [fst] in Hfst; subst outcome; [left | right]; eauto.
Qed.

Lemma uploadPart_cases (st st1 : uploadState) (data : bytes) :
  isErrored st1 = false ->
  (exists tag wire,
      doPutObject transport prm bucket key contentType (blockLength data)
                  uploadId (VNum (st_part st)) (bufferOf data)
      = (Ok tag, wire)
      /\ uploadPart transport prm bucket key contentType uploadId
                    (st_part st) data st1
         = pushEtag {| part := st_part st; etag := tag |}
             (record (Uploaded (st_part st) data wire (Ok tag)) st1))
  \/ (exists d wire,
      doPutObject transport prm bucket key contentType (blockLength data)
                  uploadId (VNum (st_part st)) (bufferOf data)
      = (Err (Domain d), wire)
      /\ uploadPart transport prm bucket key contentType uploadId
                    (st_part st) data st1
         = latch (Domain d)
             (record (Uploaded (st_part st) data wire (Err (Domain d)))
                     st1)).
Proof.
  intros Hclean. unfold uploadPart. fold (blockLength data).
  destruct (doPutObject_in_stream (st_part st) data)
    as [(d & wire & Hput) | (tag & wire & Hput)]; rewrite Hput.
  - right. exists d, wire. split; [reflexivity |].
    unfold isErrored in *. cbn [errored record]. rewrite Hclean.
    reflexivity.
  - left. exists tag, wire. split; [reflexivity |].
    unfold isErrored in *. cbn [errored record]. rewrite Hclean.
    reflexivity.
Qed.

(** A block that passed both tests: resumed, uploaded, or refused,
    according to the head of the manifest and to [doPutObject]. *)
Local Ltac dispatch st data Hclean :=
  cbn [partsArray advance];
  let curJob := fresh "curJob" in
  let rest := fresh "rest" in
  let Hjobs := fresh "Hjobs" in
  let Hcmp := fresh "Hcmp" in
  destruct (partsArray st) as [| curJob rest] eqn:Hjobs;
  [ destruct (uploadPart_cases st (advance (blockLength data) st) data)
      as [(tag & wire & Hput & ->) | (d & wire & Hput & ->)];
      [ exact Hclean
      | eapply step_uploaded; eauto; by constructor
      | eapply step_failed; eauto; by constructor ]
  | destruct (strictEq (etag curJob)
                (VStr (toLowerCase (digest "md5" "hex" data)))) eqn:Hcmp;
    [ apply strictEq_eq in Hcmp; rewrite <- Hcmp; by eapply step_resumed
    | assert (etag curJob <> VStr (md5Hex data))
        by (intros Heq; apply strictEq_eq in Heq; unfold md5Hex in Heq;
            congruence);
      destruct (uploadPart_cases st
                  (record (Hashed (st_part st) curJob data)
                     (shifted rest (advance (blockLength data) st))) data)
        as [(tag & wire & Hput & ->) | (d & wire & Hput & ->)];
      [ exact Hclean
      | eapply step_uploaded; eauto; by econstructor
      | eapply step_failed; eauto; by econstructor ] ] ].

(** Whatever the block and the state, [transform] leaves through one
    of the five cases. *)
Lemma transform_step (st : uploadState) (data : bytes) :
  stepCase st data (step st data).
Proof.
  unfold transform. fold (blockLength data).
  destruct (isErrored st) eqn:Hclean; [by constructor |].
  destruct (Z.ltb_spec (blockLength data) partSize) as [Hshort | Hfull];
    cbn [andb].
  - destruct (Z.eqb_spec (totalSize - totalSeen st) (blockLength data))
      as [Hexp | Hexp]; cbn [negb]; [| by constructor].
    assert (Hacc : sizeAccepted partSize totalSize st data) by by right.
    dispatch st data Hclean.
  - assert (Hacc : sizeAccepted partSize totalSize st data) by by left.
    dispatch st data Hclean.
Qed.

Lemma run_snoc (st : uploadState) (blocks : list bytes) (b : bytes) :
  run st (blocks ++ [b]) = step (run st blocks) b.
Proof. unfold processBlocks. by rewrite fold_left_app. Qed.

Lemma run_cons (st : uploadState) (b : bytes) (blocks : list bytes) :
  run st (b :: blocks) = run (step st b) blocks.
Proof. reflexivity. Qed.

(** Once the latch is set, [transform] does nothing any more. *)
Lemma run_errored (st : uploadState) (blocks : list bytes) :
  isErrored st = true -> run st blocks = st.
Proof.
  intros Herr. induction blocks as [| b blocks IH]; [reflexivity |].
  unfold processBlocks in *. cbn [fold_left].
  unfold transform at 2. rewrite Herr. exact IH.
Qed.

(** Induction over a run: what holds before the first block and is kept
    by each of the five cases holds after the last block. *)
Lemma run_invariant (P : list bytes -> uploadState -> Prop)
    (st0 : uploadState) (blocks : list bytes) :
  P [] st0 ->
  (forall done b rest st st',
      blocks = done ++ b :: rest ->
      P done st -> stepCase st b st' -> P (done ++ [b]) st') ->
  P blocks (run st0 blocks).
Proof.
  intros Hinit Hstep.
  enough (Hgen : forall rest done st,
             blocks = done ++ rest -> P done st ->
             P (done ++ rest) (run st rest)).
  { apply (Hgen blocks [] st0); [reflexivity | exact Hinit]. }
  induction rest as [| b rest IH]; intros done st Hsplit Hdone.
  - by rewrite app_nil_r.
  - replace (done ++ b :: rest) with ((done ++ [b]) ++ rest)
      by by rewrite <- app_assoc.
    unfold processBlocks. cbn [fold_left]. apply IH.
    + by rewrite <- app_assoc.
    + eapply Hstep; [exact Hsplit | exact Hdone | apply transform_step].
Qed.

(** What the way towards [doPutObject] does to the state. *)
Lemma towardsUpload_facts (st st1 : uploadState) (data : bytes) :
  towardsUpload st data st1 ->
  st_part st1 = st_part st + 1
  /\ errored st1 = errored st
  /\ etags st1 = etags st
  /\ totalSeen st1 = totalSeen st + blockLength data
  /\ partsArray st1 = tail (partsArray st)
  /\ (trace st1 = trace st /\ partsArray st = []
      \/ exists curJob rest,
           partsArray st = curJob :: rest
           /\ etag curJob <> VStr (md5Hex data)
           /\ trace st1 = trace st ++ [Hashed (st_part st) curJob data]).
Proof.
  intros [Hjobs | curJob rest Hjobs Hne]; cbn; rewrite Hjobs;
    split_and!; try reflexivity.
  - by left.
  - right. by exists curJob, rest.
Qed.

Lemma tail_drop {A} (l : list A) (n : nat) : tail (drop n l) = drop (S n) l.
Proof.
  revert n. induction l as [| x l IH]; intros [| n]; cbn; try done.
Qed.

Lemma seqZ_snoc (m n : Z) : 0 <= n -> seqZ m (n + 1) = seqZ m n ++ [m + n].
Proof.
  intros Hn. rewrite seqZ_app by lia. reflexivity.
Qed.

Lemma counted_step jobs0 done b st st' :
  counted jobs0 done st -> stepCase st b st' ->
  counted jobs0 (done ++ [b]) st'.
Proof.
  intros (Hpart & Hjobs & Hclean) Hstep.
  assert (Hnext : Z.to_nat (st_part st + 1 - 1) = S (Z.to_nat (st_part st - 1)))
    by lia.
  assert (Hshift : tail (partsArray st)
                   = drop (Z.to_nat (st_part st + 1 - 1)) jobs0)
    by (by rewrite Hnext, <- tail_drop, Hjobs).
  unfold counted. rewrite length_app, concat_app, length_app. cbn [length concat].
  rewrite app_nil_r.
  destruct Hstep as [Herr | Hok Hshort Hexp | curJob rest Hok Hacc Hhead Hmatch
                     | st1 tag wire Hok Hacc Hto Hput
                     | st1 d wire Hok Hacc Hto Hput].
  - split_and!; [lia | lia | done | congruence].
  - cbn. split_and!; [lia | lia | done | discriminate].
  - destruct (Hclean Hok) as (Hp & Hseen & Hetags).
    rewrite Hhead in Hshift. cbn [tail] in Hshift.
    cbn. split_and!; [lia | lia | done |].
    intros _. split_and!; [lia | unfold blockLength; lia |].
    rewrite fmap_app, Hetags. cbn [fmap list_fmap part].
    replace (Z.of_nat (length done + 1)) with (Z.of_nat (length done) + 1)
      by lia.
    rewrite seqZ_snoc by lia. do 2 f_equal. lia.
  - destruct (Hclean Hok) as (Hp & Hseen & Hetags).
    destruct (towardsUpload_facts _ _ _ Hto)
      as (Hp1 & Herr1 & Het1 & Hseen1 & Hjobs1 & _).
    cbn. rewrite ?Hp1, ?Het1, ?Hseen1, ?Hjobs1.
    split_and!; [lia | lia | done |].
    intros _. split_and!; [lia | unfold blockLength; lia |].
    rewrite fmap_app, Hetags. cbn [fmap list_fmap part].
    replace (Z.of_nat (length done + 1)) with (Z.of_nat (length done) + 1)
      by lia.
    rewrite seqZ_snoc by lia. do 2 f_equal. lia.
  - destruct (towardsUpload_facts _ _ _ Hto)
      as (Hp1 & Herr1 & Het1 & Hseen1 & Hjobs1 & _).
    cbn. rewrite ?Hp1, ?Hjobs1.
    split_and!; [lia | lia | done | discriminate].
Qed.

(** *** The latch *)

Lemma noFailedUpload_snoc (tr : list upEvent) (ev : upEvent) :
  noFailedUpload tr ->
  (forall k data wire e, ev <> Uploaded k data wire (Err e)) ->
  noFailedUpload (tr ++ [ev]).
Proof.
  intros Htr Hev k data wire e Hin.
  apply elem_of_app in Hin as [Hin | Hin].
  - by eapply Htr.
  - apply list_elem_of_singleton in Hin. by eapply Hev.
Qed.

Lemma latched_clean (st : uploadState) :
  latched st -> isErrored st = false ->
  errored st = None /\ noFailedUpload (trace st).
Proof.
  unfold latched, isErrored. destruct (errored st) as [e |].
  - intros [Htruthy _] Hfalsy. congruence.
  - by intros Htr _.
Qed.

Lemma towardsUpload_clean (st st1 : uploadState) (data : bytes) :
  towardsUpload st data st1 ->
  noFailedUpload (trace st) -> noFailedUpload (trace st1).
Proof.
  intros Hto Htr.
  destruct (towardsUpload_facts _ _ _ Hto)
    as (_ & _ & _ & _ & _ & [[-> _] | (curJob & rest & _ & _ & ->)]);
    [exact Htr |].
  apply noFailedUpload_snoc; [exact Htr | discriminate].
Qed.

Lemma latched_step b st st' :
  latched st -> stepCase st b st' -> latched st'.
Proof.
  intros Hlatched
    [Herr | Hok Hshort Hexp | curJob rest Hok Hacc Hhead Hmatch
     | st1 tag wire Hok Hacc Hto Hput | st1 d wire Hok Hacc Hto Hput];
    [exact Hlatched | ..];
    destruct (latched_clean st Hlatched Hok) as [Hnone Htr].
  - unfold latched. cbn. split; [reflexivity |]. by left.
  - unfold latched. cbn. rewrite Hnone.
    apply noFailedUpload_snoc; [exact Htr | discriminate].
  - destruct (towardsUpload_facts _ _ _ Hto) as (_ & Herr1 & _).
    unfold latched. cbn. rewrite Herr1, Hnone.
    apply noFailedUpload_snoc; [| discriminate].
    by eapply towardsUpload_clean.
  - destruct (towardsUpload_facts _ _ _ Hto) as (Hp1 & _).
    unfold latched. cbn. split; [reflexivity |]. right.
    exists (trace st1), (st_part st), b, wire.
    split_and!; [reflexivity | by eapply towardsUpload_clean | exact Hp1].
Qed.

(** *** The trace *)

Lemma bounded_snoc (tr : list upEvent) (ev : upEvent) (bound bound' : Z) :
  (forall ev', ev' ∈ tr -> 1 <= eventPart ev' < bound) ->
  bound <= bound' -> 1 <= eventPart ev < bound' ->
  forall ev', ev' ∈ tr ++ [ev] -> 1 <= eventPart ev' < bound'.
Proof.
  intros Htr Hle Hev ev' Hin. apply elem_of_app in Hin as [Hin | Hin].
  - specialize (Htr ev' Hin). lia.
  - apply list_elem_of_singleton in Hin. by subst ev'.
Qed.

Lemma towardsUpload_bounded (st st1 : uploadState) (data : bytes) :
  1 <= st_part st -> traceBounded st -> towardsUpload st data st1 ->
  traceBounded st1.
Proof.
  intros Hpos Hbound [Hjobs | curJob rest Hjobs Hne]; unfold traceBounded;
    cbn [trace st_part advance shifted record].
  - intros ev Hin. specialize (Hbound ev Hin). lia.
  - eapply bounded_snoc; [exact Hbound | lia | cbn; lia].
Qed.

Lemma traceBounded_step b st st' :
  1 <= st_part st ->
  traceBounded st -> stepCase st b st' -> traceBounded st'.
Proof.
  intros Hpos Hbound
    [Herr | Hok Hshort Hexp | curJob rest Hok Hacc Hhead Hmatch
     | st1 tag wire Hok Hacc Hto Hput | st1 d wire Hok Hacc Hto Hput];
    try exact Hbound.
  - unfold traceBounded. cbn [trace st_part advance shifted record pushEtag].
    eapply bounded_snoc; [exact Hbound | lia | cbn; lia].
  - pose proof (towardsUpload_bounded _ _ _ Hpos Hbound Hto) as Hb1.
    destruct (towardsUpload_facts _ _ _ Hto) as (Hp1 & _).
    unfold traceBounded. cbn [trace st_part record pushEtag].
    eapply bounded_snoc; [exact Hb1 | lia | cbn; lia].
  - pose proof (towardsUpload_bounded _ _ _ Hpos Hbound Hto) as Hb1.
    destruct (towardsUpload_facts _ _ _ Hto) as (Hp1 & _).
    unfold traceBounded. cbn [trace st_part record latch].
    eapply bounded_snoc; [exact Hb1 | lia | cbn; lia].
Qed.

Lemma drop_head {A} (l rest : list A) (n : nat) (x : A) :
  drop n l = x :: rest -> l !! n = Some x.
Proof.
  intros Hdrop. rewrite <- (Nat.add_0_r n), <- lookup_drop, Hdrop.
  reflexivity.
Qed.

Lemma hashedInOrder_step jobs0 done b st st' :
  counted jobs0 done st -> hashedInOrder jobs0 done st ->
  stepCase st b st' -> hashedInOrder jobs0 (done ++ [b]) st'.
Proof.
  intros (Hpart & Hjobs & Hclean) Hord Hstep.
  assert (Hold : forall k curJob data,
             Hashed k curJob data ∈ trace st ->
             jobs0 !! Z.to_nat (k - 1) = Some curJob
             /\ (done ++ [b]) !! Z.to_nat (k - 1) = Some data).
  { intros k curJob data Hin. destruct (Hord k curJob data Hin) as [Hj Hd].
    split; [exact Hj | by apply lookup_app_l_Some]. }
  assert (Hnew : isErrored st = false ->
             forall curJob rest, partsArray st = curJob :: rest ->
             jobs0 !! Z.to_nat (st_part st - 1) = Some curJob
             /\ (done ++ [b]) !! Z.to_nat (st_part st - 1) = Some b).
  { intros Hok curJob rest Hhead. destruct (Hclean Hok) as (Hp & _).
    split.
    - eapply drop_head. by rewrite <- Hjobs.
    - replace (Z.to_nat (st_part st - 1)) with (length done) by lia.
      apply list_lookup_middle. reflexivity. }
  destruct Hstep
    as [Herr | Hok Hshort Hexp | curJob rest Hok Hacc Hhead Hmatch
        | st1 tag wire Hok Hacc Hto Hput | st1 d wire Hok Hacc Hto Hput];
    unfold hashedInOrder; cbn [trace latch pushEtag record shifted advance];
    try exact Hold;
    try (destruct (towardsUpload_facts _ _ _ Hto)
          as (_ & _ & _ & _ & _
              & [[Htr1 _] | (curJob & rest & Hhead & _ & Htr1)]);
         rewrite Htr1);
    intros k job data Hin;
    repeat (apply elem_of_app in Hin as [Hin | Hin]);
    try (by apply Hold);
    apply list_elem_of_singleton in Hin; try discriminate;
    injection Hin as -> -> ->; by eapply Hnew.
Qed.

(** *** The wire *)

Lemma doPutObject_builds_put curPart (data : bytes) outcome wire :
  doPutObject transport prm bucket key contentType (blockLength data)
              uploadId (VNum curPart) (bufferOf data) = (outcome, wire) ->
  forall rp h ak sk, Signed rp h ak sk ∈ wire -> method rp = "PUT".
Proof.
  intros Hput rp h ak sk Hin.
  destruct (doPutObject_wire transport prm bucket key contentType
              uploadId (VNum curPart) data)
    as (rp0 & Hwire & Hmethod).
  unfold blockLength in Hput. rewrite Hput in Hwire. cbn [snd] in Hwire.
  subst wire.
  apply elem_of_cons in Hin as [Hin | Hin]; [by injection Hin as -> |].
  apply list_elem_of_singleton in Hin. discriminate.
Qed.

Lemma wireTrace_snoc (tr : list upEvent) (ev : upEvent) :
  wireTrace (tr ++ [ev]) = wireTrace tr ++ wireOf ev.
Proof.
  unfold wireTrace. rewrite map_app, concat_app. cbn.
  by rewrite app_nil_r.
Qed.

Lemma onlyPuts_step b st st' :
  onlyPuts (trace st) -> stepCase st b st' -> onlyPuts (trace st').
Proof.
  intros Hputs
    [Herr | Hok Hshort Hexp | curJob rest Hok Hacc Hhead Hmatch
     | st1 tag wire Hok Hacc Hto Hput | st1 d wire Hok Hacc Hto Hput];
    try exact Hputs; unfold onlyPuts;
    cbn [trace latch pushEtag record shifted advance];
    try (destruct (towardsUpload_facts _ _ _ Hto)
          as (_ & _ & _ & _ & _
              & [[Htr1 _] | (curJob & rest & _ & _ & Htr1)]);
         rewrite Htr1);
    rewrite ?wireTrace_snoc; cbn [wireOf]; rewrite ?app_nil_r;
    intros rp h ak sk Hin;
    repeat (apply elem_of_app in Hin as [Hin | Hin]);
    try (by eapply Hputs);
    by eapply doPutObject_builds_put.
Qed.

(** *** Resuming *)

Section Resume.
Variable K : nat.
Variable jobs0 : list partEntry.
Variable blocks : list bytes.
Hypothesis HK : (K <= length jobs0)%nat.
Hypothesis Hmatch :
  forall i job block,
    (i < K)%nat -> jobs0 !! i = Some job -> blocks !! i = Some block ->
    etag job = VStr (md5Hex block).

(** A block that reaches [doPutObject] is past the matching prefix. *)
Lemma upload_past_prefix (done : list bytes) (b : bytes)
    (rest : list bytes) (st st1 : uploadState) :
  blocks = done ++ b :: rest ->
  counted jobs0 done st -> isErrored st = false ->
  towardsUpload st b st1 ->
  (K <= length done)%nat.
Proof.
  intros Hsplit (Hpart & Hjobs & Hclean) Hok Hto.
  destruct (Hclean Hok) as (Hp & _).
  replace (Z.to_nat (st_part st - 1)) with (length done) in Hjobs by lia.
  destruct (Nat.le_gt_cases K (length done)) as [Hle | Hlt]; [exact Hle |].
  exfalso.
  destruct (lookup_lt_is_Some_2 jobs0 (length done)) as [job Hjob]; [lia |].
  assert (Hb : blocks !! length done = Some b)
    by (subst blocks; by apply list_lookup_middle).
  assert (Hhd : partsArray st !! 0%nat = Some job)
    by (by rewrite Hjobs, lookup_drop, Nat.add_0_r).
  destruct Hto as [Hnil | curJob rest' Hhead Hne].
  - rewrite Hnil in Hhd. discriminate.
  - rewrite Hhead in Hhd. injection Hhd as ->.
    apply Hne. by eapply Hmatch.
Qed.

Lemma length_etags (done : list bytes) (st : uploadState) :
  counted jobs0 done st -> isErrored st = false ->
  length (etags st) = length done.
Proof.
  intros (_ & _ & Hclean) Hok. destruct (Hclean Hok) as (_ & _ & Hetags).
  apply (f_equal length) in Hetags.
  rewrite length_fmap, length_seqZ in Hetags. lia.
Qed.

Lemma length_resumedEntries :
  length (resumedEntries (take K jobs0)) = K.
Proof. unfold resumedEntries. rewrite length_imap, length_take. lia. Qed.

(** Past the prefix, a new entry leaves the first [K] entries alone. *)
Lemma prefix_kept (done : list bytes) (st : uploadState)
    (entry : partEntry) :
  (K <= length done)%nat ->
  length (etags st) = length done ->
  take K (etags st) = take (length done) (resumedEntries (take K jobs0)) ->
  take K (etags st ++ [entry])
  = take (length done + 1) (resumedEntries (take K jobs0)).
Proof.
  intros Hle Hlen Hprefix.
  rewrite take_app_le by lia. rewrite Hprefix.
  rewrite (take_ge _ (length done))
    by (rewrite length_resumedEntries; lia).
  rewrite (take_ge _ (length done + 1))
    by (rewrite length_resumedEntries; lia).
  reflexivity.
Qed.

Lemma resumedPrefix_step (done : list bytes) (b : bytes)
    (rest : list bytes) (st st' : uploadState) :
  blocks = done ++ b :: rest ->
  counted jobs0 done st -> resumedPrefix K jobs0 done st ->
  stepCase st b st' -> resumedPrefix K jobs0 (done ++ [b]) st'.
Proof.
  intros Hsplit Hcounted [Hups Hprefix] Hstep.
  unfold resumedPrefix. rewrite length_app. cbn [length].
  destruct Hstep
    as [Herr | Hok Hshort Hexp | curJob rest' Hok Hacc Hhead Hsame
        | st1 tag wire Hok Hacc Hto Hput | st1 d wire Hok Hacc Hto Hput].
  - split; [exact Hups | congruence].
  - split; [exact Hups | discriminate].
  - pose proof (length_etags done st Hcounted Hok) as Hlen.
    specialize (Hprefix Hok).
    destruct Hcounted as (Hpart & Hjobs & Hclean).
    destruct (Hclean Hok) as (Hp & _).
    replace (Z.to_nat (st_part st - 1)) with (length done) in Hjobs by lia.
    split.
    + cbn [trace pushEtag record]. intros k data wire outcome Hin.
      apply elem_of_app in Hin as [Hin | Hin]; [by eapply Hups |].
      apply list_elem_of_singleton in Hin. discriminate.
    + intros _. cbn [etags pushEtag record shifted advance].
      destruct (Nat.le_gt_cases K (length done)) as [Hle | Hlt];
        [by apply prefix_kept |].
      rewrite take_ge in Hprefix by lia.
      rewrite take_ge by (rewrite length_app; cbn; lia).
      rewrite Hprefix.
      assert (Hjob : jobs0 !! length done = Some curJob)
        by (eapply drop_head; by rewrite <- Hjobs).
      rewrite Nat.add_1_r.
      erewrite take_S_r; [f_equal |].
      unfold resumedEntries.
      rewrite list_lookup_imap, lookup_take_lt, Hjob by lia. cbn.
      do 2 f_equal. lia.
  - pose proof (upload_past_prefix _ _ _ _ _ Hsplit Hcounted Hok Hto)
      as Hle.
    pose proof (length_etags done st Hcounted Hok) as Hlen.
    specialize (Hprefix Hok).
    destruct Hcounted as (Hpart & Hjobs & Hclean).
    destruct (Hclean Hok) as (Hp & _).
    destruct (towardsUpload_facts _ _ _ Hto)
      as (_ & _ & Het1 & _ & _ & Htr1).
    split.
    + cbn [trace pushEtag record]. intros k data wire' outcome Hin.
      apply elem_of_app in Hin as [Hin | Hin].
      * destruct Htr1 as [[Htr1 _] | (curJob & rest' & _ & _ & Htr1)];
          rewrite Htr1 in Hin; [by eapply Hups |].
        apply elem_of_app in Hin as [Hin | Hin]; [by eapply Hups |].
        apply list_elem_of_singleton in Hin. discriminate.
      * apply list_elem_of_singleton in Hin. injection Hin as -> _ _ _.
        lia.
    + intros _. cbn [etags pushEtag record]. rewrite Het1.
      by apply prefix_kept.
  - pose proof (upload_past_prefix _ _ _ _ _ Hsplit Hcounted Hok Hto)
      as Hle.
    destruct Hcounted as (Hpart & Hjobs & Hclean).
    destruct (Hclean Hok) as (Hp & _).
    destruct (towardsUpload_facts _ _ _ Hto)
      as (_ & _ & _ & _ & _ & Htr1).
    split; [| discriminate].
    cbn [trace latch record]. intros k data wire' outcome Hin.
    apply elem_of_app in Hin as [Hin | Hin].
    + destruct Htr1 as [[Htr1 _] | (curJob & rest' & _ & _ & Htr1)];
        rewrite Htr1 in Hin; [by eapply Hups |].
      apply elem_of_app in Hin as [Hin | Hin]; [by eapply Hups |].
      apply list_elem_of_singleton in Hin. discriminate.
    + apply list_elem_of_singleton in Hin. injection Hin as -> _ _ _.
      lia.
Qed.

End Resume.

End StreamUploadFacts.

(** ** The orchestrator, a whole run *)

Section StreamUploadRuns.
Context `{SV : Services}.
Variable transport : transportT.
Variable prm : params.
Variables bucket key : string.
Variable contentType : value.
Variable uploadId : string.

Local Abbreviation upload :=
  (streamUpload transport prm bucket key contentType uploadId).

Lemma initial_counted (jobs0 : list partEntry) :
  counted jobs0 [] (initialState jobs0).
Proof.
  unfold counted. cbn. split_and!; try lia; [by rewrite drop_0 | done].
Qed.

(** The invariants hold of the state every run ends in. *)
Lemma streamUpload_invariants (jobs0 : list partEntry) (totalSize : Z)
    (r : bytes) :
  let blocks := BlockStream2 (calculatePartSize totalSize) r in
  let st := snd (upload jobs0 totalSize r) in
  counted jobs0 blocks st /\ latched st /\ traceBounded st
  /\ hashedInOrder jobs0 blocks st /\ onlyPuts (trace st).
Proof.
  intros blocks st. subst st. unfold streamUpload. cbn [snd]. fold blocks.
  apply (run_invariant transport prm bucket key contentType uploadId _ _
           (fun done st =>
              counted jobs0 done st /\ latched st /\ traceBounded st
              /\ hashedInOrder jobs0 done st /\ onlyPuts (trace st))).
  - split_and!.
    + apply initial_counted.
    + intros k data wire e Hin. by apply elem_of_nil in Hin.
    + intros ev Hin. by apply elem_of_nil in Hin.
    + intros k curJob data Hin. by apply elem_of_nil in Hin.
    + intros rp h ak sk Hin. by apply elem_of_nil in Hin.
  - intros done b rest st st' _ (Hc & Hl & Hb & Hh & Hp) Hstep.
    split_and!.
    + by eapply counted_step.
    + by eapply latched_step.
    + eapply traceBounded_step; [| exact Hb | exact Hstep].
      destruct Hc as (Hpart & _). lia.
    + by eapply hashedInOrder_step.
    + by eapply onlyPuts_step.
Qed.

(** A failed upload in the trace is its last event, and its error is
    what the latch holds. *)
Lemma failed_upload_latched (st : uploadState) k data wire e :
  latched st -> Uploaded k data wire (Err e) ∈ trace st ->
  errored st = Some e /\ errTruthy e = true
  /\ st_part st = k + 1
  /\ exists pre, trace st = pre ++ [Uploaded k data wire (Err e)]
                 /\ noFailedUpload pre.
Proof.
  unfold latched. intros Hlatched Hin.
  destruct (errored st) as [e' |]; [| by apply Hlatched in Hin].
  destruct Hlatched
    as [Htruthy [[_ Hclean] | (pre & k' & data' & wire' & Htr & Hpre & Hp)]];
    [by apply Hclean in Hin |].
  rewrite Htr in Hin. apply elem_of_app in Hin as [Hin | Hin];
    [by apply Hpre in Hin |].
  apply list_elem_of_singleton in Hin. injection Hin as -> -> -> ->.
  split_and!; try done. by exists pre.
Qed.

Lemma flush_latched (totalSize : Z) (st : uploadState) (e : error DomainError) :
  errored st = Some e -> errTruthy e = true -> flush totalSize st = Err e.
Proof. unfold flush. by intros -> ->. Qed.

Lemma flush_clean_mismatch (totalSize : Z) (st : uploadState) :
  isErrored st = false -> totalSeen st <> totalSize ->
  flush totalSize st = Err (Msg sizeMismatch).
Proof.
  unfold flush, isErrored. intros Hfine Hseen.
  destruct (errored st) as [e |]; [rewrite Hfine |];
    by destruct (Z.eqb_spec (totalSeen st) totalSize).
Qed.

Lemma flush_ok (totalSize : Z) (st : uploadState) (out : list partEntry) :
  flush totalSize st = Ok out ->
  isErrored st = false /\ totalSeen st = totalSize /\ out = etags st.
Proof.
  unfold flush, isErrored.
  destruct (errored st) as [e |]; [destruct (errTruthy e); [done |] |];
    destruct (Z.eqb_spec (totalSeen st) totalSize); cbn [negb];
    intros Heq; try discriminate; by injection Heq as <-.
Qed.

(** On success the manifest is numbered 1, 2, ..., one entry per block. *)
Lemma streamUpload_manifest_numbers (jobs0 : list partEntry)
    (totalSize : Z) (r : bytes) (out : list partEntry) :
  fst (upload jobs0 totalSize r) = Ok out ->
  part <$> out
  = seqZ 1 (Z.of_nat (length (BlockStream2 (calculatePartSize totalSize) r))).
Proof.
  intros Hok.
  destruct (streamUpload_invariants jobs0 totalSize r)
    as ((_ & _ & Hclean) & _).
  unfold streamUpload in *. cbn [fst snd] in *.
  apply flush_ok in Hok as (Hfine & _ & ->).
  by destruct (Hclean Hfine) as (_ & _ & Hnum).
Qed.

End StreamUploadRuns.

(** ** The upload finalizer *)

Lemma documentPartNumbers_payloadObject (etags : list partEntry) :
  documentPartNumbers (payloadObject etags)
  = (fun element => VNum (part element)) <$> etags.
Proof.
  unfold payloadObject, documentPartNumbers.
  induction etags as [| element etags IH]; [reflexivity |].
  cbn [map concat fmap list_fmap]. rewrite IH. reflexivity.
Qed.

(** C1, as the claim states it, fails: a manifest whose entries were
    appended in the order 2, 1 is a permutation of a valid manifest, and
    its completion document lists PartNumber 2 before PartNumber 1. *)
Lemma completion_document_not_sorted :
  let manifest := [ {| part := 2; etag := VStr "tag-2" |};
                    {| part := 1; etag := VStr "tag-1" |} ] in
  manifest ≡ₚ [ {| part := 1; etag := VStr "tag-1" |};
                {| part := 2; etag := VStr "tag-2" |} ]
  /\ documentPartNumbers (payloadObject manifest) = [VNum 2; VNum 1]
  /\ documentPartNumbers (payloadObject manifest) <> [VNum 1; VNum 2].
Proof.
  split_and!; [apply Permutation_swap | reflexivity |].
  vm_compute. discriminate.
Qed.

(** C1, amended. The completion document lists one Part per manifest
    entry in the order of the manifest it is given, and it is this
    document that is serialized, hashed, signed and sent; no sort is
    applied.  So a manifest numbered 1..N in order, which is how
    [streamUpload] builds it, gives a document whose PartNumber values are
    1..N ascending, without duplicate and without gap. *)
Theorem completion_document_order `{SV : Services} (transport : transportT)
    (prm : params) (bucket key uploadId : string) (etags : list partEntry) :
  documentPartNumbers (payloadObject etags)
  = (fun element => VNum (part element)) <$> etags
  /\ (exists rp h,
        snd (completeMultipartUpload transport prm bucket key uploadId etags)
        = [Signed rp h (accessKey prm) (secretKey prm);
           Request (signV4 rp h (accessKey prm) (secretKey prm))
                   (String.list_byte_of_string (Xml (payloadObject etags)))]
        /\ method rp = "POST")
  /\ (forall N, part <$> etags = seqZ 1 N ->
        documentPartNumbers (payloadObject etags) = VNum <$> seqZ 1 N).
Proof.
  split_and!.
  - apply documentPartNumbers_payloadObject.
  - unfold completeMultipartUpload. cbn [snd]. eexists _, _.
    split; reflexivity.
  - intros N Hnum. rewrite documentPartNumbers_payloadObject, <- Hnum.
    by rewrite <- list_fmap_compose.
Qed.

Lemma completion_document_order_witness :
  part <$> [ {| part := 1; etag := VStr "tag-1" |};
             {| part := 2; etag := VStr "tag-2" |} ] = seqZ 1 2
  /\ documentPartNumbers
       (payloadObject [ {| part := 1; etag := VStr "tag-1" |};
                        {| part := 2; etag := VStr "tag-2" |} ])
     = VNum <$> seqZ 1 2.
Proof.
  split; [reflexivity |].
  apply (completion_document_order (SV := mockServices) acceptingTransport
           mockParams "bucket" "key" "upload-1").
  reflexivity.
Defined.

(** X14. When [streamUpload] succeeds, the completion document made of
    the manifest it returns lists PartNumber 1..N in ascending order, N
    the number of blocks of the stream. *)
Lemma streamUpload_document_ascending `{SV : Services}
    (transport : transportT) (prm : params) (bucket key : string)
    (contentType : value) (uploadId : string) (jobs0 : list partEntry)
    (totalSize : Z) (r : bytes) (out : list partEntry) :
  fst (streamUpload transport prm bucket key contentType uploadId
         jobs0 totalSize r) = Ok out ->
  documentPartNumbers (payloadObject out)
  = VNum <$> seqZ 1 (Z.of_nat (length (BlockStream2
                                         (calculatePartSize totalSize) r))).
Proof.
  intros Hok. rewrite documentPartNumbers_payloadObject.
  rewrite <- (streamUpload_manifest_numbers transport prm bucket key
                contentType uploadId jobs0 totalSize r out Hok).
  by rewrite <- list_fmap_compose.
Qed.

Lemma length_fullBlock : Z.of_nat (length fullBlock) = minimumPartSize.
Proof.
  unfold fullBlock. rewrite length_replicate.
  apply Z2Nat.id. unfold minimumPartSize. lia.
Qed.

(** ** Failure of a part *)

(** C5. When the upload of some part k fails, that failed call is the
    last event of the run: no part after k is hashed or uploaded.  The
    run reports exactly the error of that call, which is also what the
    latch holds at the end, no upload before it had failed, and every
    request the run built is a part PUT, so no completion request was
    issued. *)
Theorem first_upload_failure_wins `{SV : Services} (transport : transportT)
    (prm : params) (bucket key : string) (contentType : value)
    (uploadId : string) (jobs0 : list partEntry) (totalSize : Z) (r : bytes)
    (k : Z) (data : bytes) (wire : list wireEvent) (e : error DomainError)
    (Hfail : Uploaded k data wire (Err e)
             ∈ trace (snd (streamUpload transport prm bucket key contentType
                             uploadId jobs0 totalSize r))) :
  let run := streamUpload transport prm bucket key contentType uploadId
                          jobs0 totalSize r in
  fst run = Err e
  /\ errored (snd run) = Some e
  /\ (exists pre, trace (snd run) = pre ++ [Uploaded k data wire (Err e)]
                  /\ noFailedUpload pre)
  /\ (forall ev, ev ∈ trace (snd run) -> eventPart ev <= k)
  /\ onlyPuts (trace (snd run)).
Proof.
  intros run.
  destruct (streamUpload_invariants transport prm bucket key contentType
              uploadId jobs0 totalSize r) as (_ & Hlatched & Hbound & _ & Hputs).
  fold run in Hlatched, Hbound, Hputs, Hfail.
  destruct (failed_upload_latched _ _ _ _ _ Hlatched Hfail)
    as (Herr & Htruthy & Hpart & Hlast).
  split_and!; try done.
  - unfold run, streamUpload in *. cbn [fst snd] in *.
    by apply flush_latched.
  - intros ev Hin. specialize (Hbound ev Hin). lia.
Qed.

(** A run of three blocks against the server that refuses the second
    part: the call for part 2 is in the trace, with the refusal as what it
    called back. *)
Lemma stale_differs (data : bytes) :
  VStr "stale" <> VStr (md5Hex (SV := mockServices) data).
Proof. unfold md5Hex. cbn. intros [= Hfirst]. Qed.

Lemma first_part_accepted (b : bytes) :
  fst (doPutObject (SV := mockServices) rejectingSecondPart mockParams
         "bucket" "key" VNull (blockLength b) "upload-1" (VNum 1)
         (bufferOf b))
  = Ok (VStr "etag-from-server").
Proof.
  unfold doPutObject, bufferOf, blockLength. cbn [failure chunks concat].
  rewrite app_nil_r, Z.eqb_refl. reflexivity.
Qed.

Lemma second_part_refused (b : bytes) :
  fst (doPutObject (SV := mockServices) rejectingSecondPart mockParams
         "bucket" "key" VNull (blockLength b) "upload-1" (VNum 2)
         (bufferOf b))
  = Err (Domain 500).
Proof.
  unfold doPutObject, bufferOf, blockLength. cbn [failure chunks concat].
  rewrite app_nil_r, Z.eqb_refl. reflexivity.
Qed.

Lemma second_part_rejected (totalSize : Z) (b1 b2 rest : bytes)
    (jobs0 : list partEntry) :
  Z.of_nat (length b1) = calculatePartSize totalSize ->
  Z.of_nat (length b2) = calculatePartSize totalSize ->
  (forall job, job ∈ jobs0 -> etag job = VStr "stale") ->
  exists wire,
    Uploaded (SV := mockServices) 2 b2 wire (Err (Domain 500))
      ∈ trace (snd (streamUpload (SV := mockServices) rejectingSecondPart
                      mockParams "bucket" "key" VNull "upload-1" jobs0
                      totalSize (b1 ++ b2 ++ rest))).
Proof.
  intros Hlen1 Hlen2 Hstale.
  pose proof (calculatePartSize_pos totalSize) as Hpos.
  unfold streamUpload. cbn [snd].
  rewrite BlockStream2_app, run_cons by done.
  rewrite BlockStream2_app, run_cons by done.
  pose proof (transform_step (SV := mockServices) rejectingSecondPart
                mockParams "bucket" "key" VNull "upload-1"
                (calculatePartSize totalSize) totalSize
                (initialState jobs0) b1) as Hstep1.
  remember (transform (SV := mockServices) rejectingSecondPart mockParams
              "bucket" "key" VNull "upload-1" (calculatePartSize totalSize)
              totalSize (initialState jobs0) b1) as st1 eqn:Hst1.
  clear Hst1.
  assert (Hfirst : isErrored st1 = false /\ st_part st1 = 2
                   /\ forall job, job ∈ partsArray st1 ->
                                  etag job = VStr "stale").
  { destruct Hstep1
      as [Herr | Hok Hshort Hexp | curJob rest' Hok Hacc Hhead Hsame
          | st' tag wire Hok Hacc Hto Hput | st' d wire Hok Hacc Hto Hput].
    - discriminate Herr.
    - unfold blockLength in Hshort. lia.
    - exfalso. apply (stale_differs b1). rewrite <- Hsame. symmetry.
      apply Hstale. cbn in Hhead. rewrite Hhead. apply list_elem_of_here.
    - destruct (towardsUpload_facts _ _ _ Hto)
        as (Hp & Herr & _ & _ & Htail & _).
      unfold isErrored. cbn. rewrite Herr, Hp, Htail. cbn.
      split_and!; [reflexivity | reflexivity |].
      intros job Hin. apply Hstale. destruct jobs0; cbn in Hin;
        [exact Hin | by apply list_elem_of_further].
    - apply (f_equal fst) in Hput. cbn [fst st_part initialState] in Hput.
      rewrite first_part_accepted in Hput. discriminate Hput. }
  destruct Hfirst as (Hfine & Hpart & Hstale1).
  pose proof (transform_step (SV := mockServices) rejectingSecondPart
                mockParams "bucket" "key" VNull "upload-1"
                (calculatePartSize totalSize) totalSize st1 b2) as Hstep2.
  remember (transform (SV := mockServices) rejectingSecondPart mockParams
              "bucket" "key" VNull "upload-1" (calculatePartSize totalSize)
              totalSize st1 b2) as st2 eqn:Hst2.
  clear Hst2.
  destruct Hstep2
    as [Herr | Hok Hshort Hexp | curJob rest' Hok Hacc Hhead Hsame
        | st' tag wire Hok Hacc Hto Hput | st' d wire Hok Hacc Hto Hput].
  - congruence.
  - unfold blockLength in Hshort. lia.
  - exfalso. apply (stale_differs b2). rewrite <- Hsame. symmetry.
    apply Hstale1. rewrite Hhead. apply list_elem_of_here.
  - apply (f_equal fst) in Hput. cbn [fst] in Hput. rewrite Hpart in Hput.
    rewrite second_part_refused in Hput. discriminate Hput.
  - pose proof (f_equal fst Hput) as Hd. cbn [fst] in Hd.
    rewrite Hpart in Hd. rewrite second_part_refused in Hd.
    injection Hd as <-.
    exists wire. rewrite run_errored by reflexivity.
    cbn [trace latch record]. rewrite Hpart.
    apply elem_of_app. right. apply list_elem_of_here.
Qed.

Lemma staleManifest_stale (job : partEntry) :
  job ∈ staleManifest -> etag job = VStr "stale".
Proof.
  unfold staleManifest. intros Hin.
  repeat (apply elem_of_cons in Hin as [-> | Hin]; [reflexivity |]).
  apply elem_of_nil in Hin. destruct Hin.
Qed.

Lemma first_upload_failure_wins_witness :
  BlockStream2 (calculatePartSize (2 * minimumPartSize))
               (fullBlock ++ fullBlock ++ [Byte.x00])
  = [fullBlock; fullBlock; [Byte.x00]]
  /\ fst (streamUpload (SV := mockServices) rejectingSecondPart mockParams
            "bucket" "key" VNull "upload-1" staleManifest
            (2 * minimumPartSize) (fullBlock ++ fullBlock ++ [Byte.x00]))
     = Err (Domain 500)
  /\ errored
       (snd (streamUpload (SV := mockServices) rejectingSecondPart mockParams
               "bucket" "key" VNull "upload-1" staleManifest
               (2 * minimumPartSize) (fullBlock ++ fullBlock ++ [Byte.x00])))
     = Some (Domain 500)
  /\ (forall ev,
        ev ∈ trace
               (snd (streamUpload (SV := mockServices) rejectingSecondPart
                       mockParams "bucket" "key" VNull "upload-1"
                       staleManifest (2 * minimumPartSize)
                       (fullBlock ++ fullBlock ++ [Byte.x00]))) ->
        eventPart ev <= 2).
Proof.
  assert (Hsize : Z.of_nat (length fullBlock)
                  = calculatePartSize (2 * minimumPartSize))
    by (rewrite length_fullBlock; reflexivity).
  split.
  - rewrite BlockStream2_app, BlockStream2_app
      by (exact Hsize || apply calculatePartSize_pos).
    rewrite BlockStream2_short; [reflexivity | discriminate |].
    cbn [length]. pose proof (calculatePartSize_pos (2 * minimumPartSize)).
    rewrite <- Hsize, length_fullBlock. unfold minimumPartSize. lia.
  - destruct (second_part_rejected (2 * minimumPartSize) fullBlock fullBlock
                [Byte.x00] staleManifest Hsize Hsize staleManifest_stale)
      as [wire Hfail].
    destruct (first_upload_failure_wins (SV := mockServices)
                rejectingSecondPart mockParams "bucket" "key" VNull "upload-1"
                staleManifest (2 * minimumPartSize)
                (fullBlock ++ fullBlock ++ [Byte.x00]) 2 fullBlock wire
                (Domain 500) Hfail)
      as (Hres & Herr & _ & Hbound & _).
    exact (conj Hres (conj Herr Hbound)).
Defined.

(** ** Declared against observed length *)

(** A first block of exactly the part size, no resume manifest, and a
    server that refuses every request: the run reports the parsed error
    of the refusal, whatever follows in the stream. *)
Lemma first_block_rejected `{SV : Services} (transport : transportT)
    (prm : params) (bucket key : string) (contentType : value)
    (uploadId : string) (totalSize : Z) (b rest : bytes) :
  Z.of_nat (length b) = calculatePartSize totalSize ->
  (forall rp body, statusCode (transport rp body) <> 200) ->
  exists rp,
    fst (streamUpload transport prm bucket key contentType uploadId
           [] totalSize (b ++ rest))
    = Err (Domain (parseError (transport rp b))).
Proof.
  intros Hlen Hrefuse.
  pose proof (calculatePartSize_pos totalSize) as Hpos.
  unfold streamUpload. cbn [fst].
  rewrite BlockStream2_app, run_cons by done.
  pose proof (transform_step transport prm bucket key contentType uploadId
                (calculatePartSize totalSize) totalSize (initialState []) b)
    as Hstep.
  destruct (doPutObject_callback transport prm bucket key contentType
              uploadId (VNum 1) b) as [rp Hcb].
  destruct (Z.eqb_spec (statusCode (transport rp b)) 200) as [Heq | _];
    [by apply Hrefuse in Heq |].
  cbn [negb] in Hcb.
  remember (transform transport prm bucket key contentType uploadId
              (calculatePartSize totalSize) totalSize (initialState []) b)
    as st' eqn:Hst'.
  clear Hst'.
  destruct Hstep
    as [Herr | Hok Hshort Hexp | curJob rest' Hok Hacc Hhead Hsame
        | st1 tag wire Hok Hacc Hto Hput
        | st1 d wire Hok Hacc Hto Hput].
  - discriminate Herr.
  - unfold blockLength in Hshort. lia.
  - discriminate Hhead.
  - cbn [st_part initialState] in Hput. unfold blockLength in Hput.
    rewrite Hput in Hcb. discriminate Hcb.
  - cbn [st_part initialState] in Hput. unfold blockLength in Hput.
    rewrite Hput in Hcb. cbn [fst] in Hcb. injection Hcb as ->.
    exists rp. rewrite run_errored by reflexivity.
    reflexivity.
Qed.

(** C4, as the claim states it, fails: with a stream one byte longer
    than declared, the first block is full, its upload is refused by the
    server, and the run reports the server's error, not the size message. *)
Lemma size_mismatch_masked_by_failed_upload :
  Z.of_nat (length (fullBlock ++ [Byte.x00])) = minimumPartSize + 1
  /\ fst (streamUpload (SV := mockServices) rejectingTransport mockParams
            "bucket" "key" VNull "upload-1" [] minimumPartSize
            (fullBlock ++ [Byte.x00]))
     = Err (Domain 500)
  /\ fst (streamUpload (SV := mockServices) rejectingTransport mockParams
            "bucket" "key" VNull "upload-1" [] minimumPartSize
            (fullBlock ++ [Byte.x00]))
     <> Err (Msg sizeMismatch).
Proof.
  assert (Hsize : Z.of_nat (length fullBlock)
                  = calculatePartSize minimumPartSize)
    by (rewrite length_fullBlock; reflexivity).
  destruct (first_block_rejected (SV := mockServices) rejectingTransport
              mockParams "bucket" "key" VNull "upload-1" minimumPartSize
              fullBlock [Byte.x00] Hsize) as [rp Hrun];
    [intros rp body; cbn; lia |].
  split_and!.
  - rewrite length_app, Nat2Z.inj_add, length_fullBlock. reflexivity.
  - rewrite Hrun. reflexivity.
  - rewrite Hrun. discriminate.
Qed.

(** C4, amended. When the byte length of the stream differs from the
    declared total length, [streamUpload] fails and hands no manifest on,
    and every request it built is a part PUT, so no completion request is
    issued.  The failure is the message 'actual size does not match
    specified size' when no part upload failed; when a part upload failed
    first, the failure is the error of that upload. *)
Theorem size_mismatch_never_completes `{SV : Services}
    (transport : transportT) (prm : params) (bucket key : string)
    (contentType : value) (uploadId : string) (jobs0 : list partEntry)
    (totalSize : Z) (r : bytes)
    (Hdiff : Z.of_nat (length r) <> totalSize) :
  let run := streamUpload transport prm bucket key contentType uploadId
                          jobs0 totalSize r in
  (exists e, fst run = Err e)
  /\ (noFailedUpload (trace (snd run)) -> fst run = Err (Msg sizeMismatch))
  /\ (forall k data wire e,
        Uploaded k data wire (Err e) ∈ trace (snd run) -> fst run = Err e)
  /\ onlyPuts (trace (snd run)).
Proof.
  intros run.
  destruct (streamUpload_invariants transport prm bucket key contentType
              uploadId jobs0 totalSize r)
    as ((_ & _ & Hclean) & Hlatched & _ & _ & Hputs).
  fold run in Hclean, Hlatched, Hputs.
  assert (Hreported : forall k data wire e,
             Uploaded k data wire (Err e) ∈ trace (snd run) ->
             fst run = Err e).
  { intros k data wire e Hin.
    destruct (failed_upload_latched _ _ _ _ _ Hlatched Hin)
      as (Herr & Htruthy & _).
    unfold run, streamUpload in *. cbn [fst snd] in *.
    by apply flush_latched. }
  assert (Hmsg : isErrored (snd run) = false ->
                 fst run = Err (Msg sizeMismatch)).
  { intros Hfine. destruct (Hclean Hfine) as (_ & Hseen & _).
    rewrite BlockStream2_concat in Hseen by apply calculatePartSize_pos.
    unfold run, streamUpload in *. cbn [fst snd] in *.
    apply flush_clean_mismatch; [exact Hfine | lia]. }
  assert (Hcases : isErrored (snd run) = false
                   \/ exists e, errored (snd run) = Some e
                                /\ errTruthy e = true).
  { unfold isErrored. destruct (errored (snd run)) as [e |]; [| by left].
    destruct (errTruthy e) eqn:Htruthy; [right; by exists e | by left]. }
  split_and!; [| | exact Hreported | exact Hputs].
  - destruct Hcases as [Hfine | (e & Herr & Htruthy)].
    + eexists. by apply Hmsg.
    + exists e. unfold run, streamUpload in *. cbn [fst snd] in *.
      by apply flush_latched.
  - intros Hnone. destruct Hcases as [Hfine | (e & Herr & Htruthy)];
      [by apply Hmsg |].
    unfold latched in Hlatched. rewrite Herr in Hlatched.
    destruct Hlatched
      as [_ [[-> _] | (pre & k & data & wire & Htr & _)]].
    + unfold run, streamUpload in *. cbn [fst snd] in *.
      by apply flush_latched.
    + exfalso. apply (Hnone k data wire e). rewrite Htr.
      apply elem_of_app. right. apply list_elem_of_here.
Qed.

Lemma size_mismatch_never_completes_witness :
  Z.of_nat (length sampleBlock) <> 4
  /\ fst (streamUpload (SV := mockServices) acceptingTransport mockParams
            "bucket" "key" VNull "upload-1" [] 4 sampleBlock)
     = Err (Msg sizeMismatch).
Proof.
  split; [vm_compute; lia |].
  apply (size_mismatch_never_completes (SV := mockServices)
           acceptingTransport mockParams "bucket" "key" VNull "upload-1"
           [] 4 sampleBlock).
  - vm_compute. lia.
  - vm_compute. intros k data wire e Hin. by apply elem_of_nil in Hin.
Defined.

(** ** Resuming an upload *)

(** C3. When the first K records of the resume manifest carry, as their
    tag, the lower-case hexadecimal MD5 of the first K blocks of the
    re-chunked stream, no call of [doPutObject] is made for the parts 1
    to K, and the manifest a successful run returns starts with those K
    parts carrying the stored tags; each record is shifted off once and
    in order: record number k is the one compared with block number k,
    and the manifest has lost exactly one record per part let through. *)
Theorem resume_reuses_matching_prefix `{SV : Services}
    (transport : transportT) (prm : params) (bucket key : string)
    (contentType : value) (uploadId : string) (jobs0 : list partEntry)
    (totalSize : Z) (r : bytes) (K : nat)
    (HKjobs : (K <= length jobs0)%nat)
    (HKblocks : (K <= length (BlockStream2 (calculatePartSize totalSize) r))%nat)
    (Hmatch : forall i job block,
        (i < K)%nat -> jobs0 !! i = Some job ->
        BlockStream2 (calculatePartSize totalSize) r !! i = Some block ->
        etag job = VStr (md5Hex block)) :
  let run := streamUpload transport prm bucket key contentType uploadId
                          jobs0 totalSize r in
  (forall k data wire outcome,
      Uploaded k data wire outcome ∈ trace (snd run) -> Z.of_nat K < k)
  /\ (forall out, fst run = Ok out ->
        take K out = resumedEntries (take K jobs0))
  /\ hashedInOrder jobs0 (BlockStream2 (calculatePartSize totalSize) r)
                   (snd run)
  /\ partsArray (snd run)
     = drop (Z.to_nat (st_part (snd run) - 1)) jobs0.
Proof.
  intros run.
  destruct (streamUpload_invariants transport prm bucket key contentType
              uploadId jobs0 totalSize r)
    as ((_ & Hjobs & _) & _ & _ & Hord & _).
  fold run in Hjobs, Hord.
  assert (Hprefix : resumedPrefix K jobs0
                      (BlockStream2 (calculatePartSize totalSize) r)
                      (snd run)).
  { unfold run, streamUpload. cbn [snd].
    apply (run_invariant transport prm bucket key contentType uploadId _ _
             (fun done st =>
                counted jobs0 done st /\ resumedPrefix K jobs0 done st)).
    - split; [apply initial_counted |]. split.
      + intros k data wire outcome Hin. by apply elem_of_nil in Hin.
      + intros _. cbn [etags initialState length]. by rewrite take_nil.
    - intros done b rest st st' Hsplit [Hc Hp] Hstep. split.
      + by eapply counted_step.
      + by eapply resumedPrefix_step. }
  destruct Hprefix as [Hups Hfirst].
  split_and!; [exact Hups | | exact Hord | exact Hjobs].
  intros out Hok. unfold run, streamUpload in *. cbn [fst snd] in *.
  apply flush_ok in Hok as (Hfine & _ & ->).
  rewrite (Hfirst Hfine). apply take_ge.
  by rewrite length_resumedEntries.
Qed.

Lemma resume_reuses_matching_prefix_witness :
  fst (streamUpload (SV := mockServices) rejectingTransport mockParams
         "bucket" "key" VNull "upload-1" [storedPart 1 sampleBlock] 3
         sampleBlock)
  = Ok [storedPart 1 sampleBlock].
Proof.
  assert (Hrun : fst (streamUpload (SV := mockServices) rejectingTransport
                        mockParams "bucket" "key" VNull "upload-1"
                        [storedPart 1 sampleBlock] 3 sampleBlock)
                 = Ok [storedPart 1 sampleBlock]) by (vm_compute; reflexivity).
  pose proof (resume_reuses_matching_prefix (SV := mockServices)
                rejectingTransport mockParams "bucket" "key" VNull
                "upload-1" [storedPart 1 sampleBlock] 3 sampleBlock 1%nat)
    as Hresume.
  destruct Hresume as (_ & Hfirst & _).
  - vm_compute. lia.
  - vm_compute. lia.
  - intros [| i] job block Hi Hjob Hblock; [| lia].
    vm_compute in Hjob, Hblock. injection Hjob as <-. injection Hblock as <-.
    reflexivity.
  - exact Hrun.
Defined.

(** ** The empty stream *)

(** C9, as the claim states it, fails: an empty stream declared as 0
    bytes long makes no request at all and succeeds with an empty
    manifest. *)
Lemma empty_stream_completes_with_empty_manifest :
  BlockStream2 (calculatePartSize 0) [] = []
  /\ fst (streamUpload (SV := mockServices) acceptingTransport mockParams
            "bucket" "key" VNull "upload-1" [] 0 [])
     = Ok []
  /\ trace (snd (streamUpload (SV := mockServices) acceptingTransport
                   mockParams "bucket" "key" VNull "upload-1" [] 0 []))
     = [].
Proof. split_and!; reflexivity. Qed.

(** C9, amended. For an empty stream declared as 0 bytes long the
    re-chunker delivers no block, so [streamUpload] computes no hash,
    uploads nothing, leaves the resume manifest as it is and succeeds
    with an empty manifest. *)
Theorem empty_stream_uploads_nothing `{SV : Services}
    (transport : transportT) (prm : params) (bucket key : string)
    (contentType : value) (uploadId : string) (jobs0 : list partEntry) :
  streamUpload transport prm bucket key contentType uploadId jobs0 0 []
  = (Ok [], initialState jobs0).
Proof.
  unfold streamUpload.
  rewrite BlockStream2_nil by apply calculatePartSize_pos.
  reflexivity.
Qed.

(** ** The head of the resume manifest *)

(** C10, as the claim states it, fails: a block that does not pass the
    short-block test is produced while the resume manifest holds a record,
    and the record stays where it is. *)
Lemma resume_head_kept_on_size_failure :
  BlockStream2 (calculatePartSize 4) sampleBlock = [sampleBlock]
  /\ partsArray
       (snd (streamUpload (SV := mockServices) acceptingTransport mockParams
               "bucket" "key" VNull "upload-1" [storedPart 1 sampleBlock] 4
               sampleBlock))
     = [storedPart 1 sampleBlock]
  /\ trace
       (snd (streamUpload (SV := mockServices) acceptingTransport mockParams
               "bucket" "key" VNull "upload-1" [storedPart 1 sampleBlock] 4
               sampleBlock))
     = [].
Proof. split_and!; vm_compute; reflexivity. Qed.

(** C10, amended. Whenever the resume manifest is not empty when a block
    gets past the latch test and the short-block test, [transform] shifts
    its head record off and compares it with that block, whether or not
    the tag matches, so that the next block meets the next record; over a
    whole run the manifest has lost exactly one record per part that was
    let through, and the record compared with block number k is record
    number k. *)
Theorem resume_head_always_consumed `{SV : Services}
    (transport : transportT) (prm : params) (bucket key : string)
    (contentType : value) (uploadId : string) (partSize totalSize : Z)
    (st : uploadState) (data : bytes) (curJob : partEntry)
    (rest : list partEntry) (jobs0 : list partEntry) (r : bytes)
    (Hfine : isErrored st = false)
    (Hsize : sizeAccepted partSize totalSize st data)
    (Hhead : partsArray st = curJob :: rest) :
  let st' := transform transport prm bucket key contentType uploadId
                       partSize totalSize st data in
  let fin := snd (streamUpload transport prm bucket key contentType uploadId
                               jobs0 totalSize r) in
  partsArray st' = rest
  /\ Hashed (st_part st) curJob data ∈ trace st'
  /\ partsArray fin = drop (Z.to_nat (st_part fin - 1)) jobs0
  /\ hashedInOrder jobs0 (BlockStream2 (calculatePartSize totalSize) r) fin.
Proof.
  intros st' fin.
  destruct (streamUpload_invariants transport prm bucket key contentType
              uploadId jobs0 totalSize r)
    as ((_ & Hjobs & _) & _ & _ & Hord & _).
  split_and!; [| | exact Hjobs | exact Hord].
  - subst st'.
    destruct (transform_step transport prm bucket key contentType uploadId
                partSize totalSize st data)
      as [Herr | Hok Hshort Hexp | curJob' rest' Hok Hacc Hhead' Hsame
          | st1 tag wire Hok Hacc Hto Hput | st1 d wire Hok Hacc Hto Hput];
      try congruence;
      try (destruct Hsize; unfold blockLength in *; lia);
      try (destruct (towardsUpload_facts _ _ _ Hto)
             as (_ & _ & _ & _ & Htail & _);
           cbn; by rewrite Htail, Hhead).
    cbn. congruence.
  - subst st'.
    destruct (transform_step transport prm bucket key contentType uploadId
                partSize totalSize st data)
      as [Herr | Hok Hshort Hexp | curJob' rest' Hok Hacc Hhead' Hsame
          | st1 tag wire Hok Hacc Hto Hput | st1 d wire Hok Hacc Hto Hput];
      try congruence;
      try (destruct Hsize; unfold blockLength in *; lia).
    + cbn. rewrite Hhead in Hhead'. injection Hhead' as <- <-.
      apply elem_of_app. right. apply list_elem_of_here.
    + destruct (towardsUpload_facts _ _ _ Hto)
        as (_ & _ & _ & _ & _ & [[_ Hnil] | (job & tl & Hjob & _ & Htr)]);
        [congruence |].
      cbn. rewrite Htr. rewrite Hhead in Hjob. injection Hjob as <- <-.
      apply elem_of_app. left. apply elem_of_app. right.
      apply list_elem_of_here.
    + destruct (towardsUpload_facts _ _ _ Hto)
        as (_ & _ & _ & _ & _ & [[_ Hnil] | (job & tl & Hjob & _ & Htr)]);
        [congruence |].
      cbn. rewrite Htr. rewrite Hhead in Hjob. injection Hjob as <- <-.
      apply elem_of_app. left. apply elem_of_app. right.
      apply list_elem_of_here.
Qed.

Lemma resume_head_always_consumed_witness :
  partsArray
    (transform (SV := mockServices) acceptingTransport mockParams "bucket"
       "key" VNull "upload-1" (calculatePartSize 3) 3
       (initialState [ {| part := 1; etag := VStr "stale" |} ]) sampleBlock)
  = [].
Proof.
  apply (resume_head_always_consumed (SV := mockServices) acceptingTransport
           mockParams "bucket" "key" VNull "upload-1" (calculatePartSize 3) 3
           (initialState [ {| part := 1; etag := VStr "stale" |} ])
           sampleBlock {| part := 1; etag := VStr "stale" |} [] [] []).
  - reflexivity.
  - right. reflexivity.
  - reflexivity.
Defined.

(** ** Opening an upload session *)

Section InitiateFacts.
Context `{SV : Services}.
Variable ParseXml : string -> option (list xmlElement).
Variable transport : bodyTransportT.
Variable prm : params.
Variables bucket key : string.

Local Abbreviation scan :=
  (fold_left (fun uploadId element =>
                if String.eqb (name element) "UploadId"
                then Some (content element)
                else uploadId)).

(** Children that are not named UploadId leave what was found alone. *)
Lemma scan_others (children : list xmlElement) (found : option string) :
  (forall el, el ∈ children -> name el <> "UploadId") ->
  scan children found = found.
Proof.
  revert found. induction children as [| el children IH]; intros found Hnone;
    [reflexivity |].
  cbn [fold_left].
  destruct (String.eqb_spec (name el) "UploadId") as [Heq | _].
  - exfalso. apply (Hnone el); [apply list_elem_of_here | exact Heq].
  - apply IH. intros el' Hin. apply Hnone. by apply list_elem_of_further.
Qed.

(** What the scan finds is what it started with or the content of a
    child named UploadId. *)
Lemma scan_found (children : list xmlElement) (found : option string)
    (id : string) :
  scan children found = Some id ->
  found = Some id
  \/ exists el, el ∈ children /\ name el = "UploadId" /\ content el = id.
Proof.
  revert found. induction children as [| el children IH]; intros found Hscan;
    [by left |].
  cbn [fold_left] in Hscan.
  destruct (IH _ Hscan) as [Hhere | (el' & Hin & Hname & Hcontent)].
  - destruct (String.eqb_spec (name el) "UploadId") as [Heq | _];
      [| by left].
    right. exists el. split_and!; [apply list_elem_of_here | exact Heq |].
    congruence.
  - right. exists el'. split_and!; try done. by apply list_elem_of_further.
Qed.

(** The last child named UploadId is the one that counts. *)
Lemma findUploadId_last (front back : list xmlElement) (el : xmlElement) :
  name el = "UploadId" ->
  (forall el', el' ∈ back -> name el' <> "UploadId") ->
  findUploadId (front ++ el :: back) = Some (content el).
Proof.
  intros Hname Hback. unfold findUploadId.
  rewrite fold_left_app. cbn [fold_left]. rewrite Hname. cbn.
  by apply scan_others.
Qed.

(** The call, with the request named and the answer of the transport
    taken apart. *)
Lemma initiate_unfolded (contentType : value) :
  exists rp,
    method rp = "POST"
    /\ path rp = "/" +:+ bucket +:+ "/" +:+ uriResourceEscape key +:+ "?uploads"
    /\ headers rp = Some {["Content-Type" := contentType]}
    /\ initiateNewMultipartUpload ParseXml transport prm bucket key contentType
       = (let answer :=
            transport (signV4 rp "" (accessKey prm) (secretKey prm)) [] in
          if negb (statusCode (fst answer) =? 200)
          then Some (Err (Domain (parseError (fst answer))))
          else match ParseXml (snd answer) with
               | None => None
               | Some children =>
                   match findUploadId children with
                   | Some uploadId =>
                       if negb (String.eqb uploadId "") then Some (Ok uploadId)
                       else Some (Err (Msg noUploadId))
                   | None => Some (Err (Msg noUploadId))
                   end
               end,
          [Signed rp "" (accessKey prm) (secretKey prm);
           Request (signV4 rp "" (accessKey prm) (secretKey prm)) []]).
Proof.
  unfold initiateNewMultipartUpload.
  exists {| rp_host := host prm; rp_port := port prm;
            rp_protocol := protocol prm;
            path := "/" +:+ bucket +:+ "/" +:+ uriResourceEscape key
                        +:+ "?uploads";
            method := "POST";
            headers := Some (<["Content-Type" := contentType]> ∅) |}.
  split_and!; try reflexivity.
  cbn zeta. by destruct (transport _ _) as [resp xml].
Qed.

End InitiateFacts.

(** X1. The session-open request is a POST to /bucket/escaped-key?uploads
    whose only header is Content-Type with the content type as the caller
    gave it; it is signed with the empty payload hash and sent with an
    empty body, once, whatever the server answers. *)
Theorem initiate_request `{SV : Services}
    (ParseXml : string -> option (list xmlElement))
    (transport : bodyTransportT) (prm : params) (bucket key : string)
    (contentType : value) :
  exists (rp : requestParams) (hs : gmap string value),
    snd (initiateNewMultipartUpload ParseXml transport prm bucket key
           contentType)
    = [Signed rp "" (accessKey prm) (secretKey prm);
       Request (signV4 rp "" (accessKey prm) (secretKey prm)) []]
    /\ method rp = "POST"
    /\ path rp = "/" +:+ bucket +:+ "/" +:+ uriResourceEscape key +:+ "?uploads"
    /\ headers rp = Some hs
    /\ hs !! "Content-Type" = Some contentType
    /\ dom hs = {["Content-Type"]}.
Proof.
  destruct (initiate_unfolded ParseXml transport prm bucket key contentType)
    as (rp & Hmethod & Hpath & Hheaders & ->).
  exists rp, {["Content-Type" := contentType]}. cbn [snd].
  split_and!; done.
Qed.

(** X2. When the call reports an upload id, the server answered 200, the
    parsed document has a root, the id is not empty, and it is the content
    of a child of that root that is named UploadId. *)
Theorem initiate_success_has_upload_id `{SV : Services}
    (ParseXml : string -> option (list xmlElement))
    (transport : bodyTransportT) (prm : params) (bucket key : string)
    (contentType : value) (id : string)
    (Hok : fst (initiateNewMultipartUpload ParseXml transport prm bucket key
                  contentType) = Some (Ok id)) :
  exists rp children el,
    Request rp []
      ∈ snd (initiateNewMultipartUpload ParseXml transport prm bucket key
               contentType)
    /\ statusCode (fst (transport rp [])) = 200
    /\ ParseXml (snd (transport rp [])) = Some children
    /\ el ∈ children
    /\ name el = "UploadId"
    /\ content el = id
    /\ id <> "".
Proof.
  destruct (initiate_unfolded ParseXml transport prm bucket key contentType)
    as (rp & _ & _ & _ & Hrun).
  rewrite Hrun in Hok |- *. cbn [fst snd] in *.
  set (signed := signV4 rp "" (accessKey prm) (secretKey prm)) in *.
  destruct (Z.eqb_spec (statusCode (fst (transport signed []))) 200)
    as [Hstatus | Hstatus]; cbn [negb] in Hok; [| discriminate].
  destruct (ParseXml (snd (transport signed []))) as [children |] eqn:Hroot;
    [| discriminate].
  destruct (findUploadId children) as [found |] eqn:Hfound; [| discriminate].
  destruct (String.eqb_spec found "") as [Hempty | Hfull]; cbn [negb] in Hok;
    [discriminate |].
  injection Hok as ->.
  destruct (scan_found _ _ _ Hfound) as [Hnone | (el & Hin & Hname & Hcontent)];
    [discriminate |].
  exists signed, children, el. split_and!; try done.
  apply list_elem_of_further, list_elem_of_here.
Qed.

Lemma initiate_success_has_upload_id_witness :
  exists rp children el,
    Request rp []
      ∈ snd (initiateNewMultipartUpload (SV := mockServices) mockParseXml
               openingTransport mockParams "bucket" "key" VNull)
    /\ statusCode (fst (openingTransport rp [])) = 200
    /\ mockParseXml (snd (openingTransport rp [])) = Some children
    /\ el ∈ children
    /\ name el = "UploadId"
    /\ content el = "upload-1"
    /\ "upload-1" <> "".
Proof.
  apply (initiate_success_has_upload_id (SV := mockServices) mockParseXml
           openingTransport mockParams "bucket" "key" VNull "upload-1").
  reflexivity.
Defined.

(** X3. With a 200 answer, the last child of the root that is named
    UploadId decides: its content is the upload id when it is not empty,
    and when it is empty the call fails with 'unable to get upload id',
    whatever earlier UploadId children hold. *)
Theorem initiate_last_upload_id_wins `{SV : Services}
    (ParseXml : string -> option (list xmlElement))
    (transport : bodyTransportT)
    (prm : params) (bucket key : string) (contentType : value)
    (resp : response) (xml : string) (front back : list xmlElement)
    (el : xmlElement)
    (Hanswer : forall rp body, transport rp body = (resp, xml))
    (Hstatus : statusCode resp = 200)
    (Hparsed : ParseXml xml = Some (front ++ el :: back))
    (Hname : name el = "UploadId")
    (Hback : forall el', el' ∈ back -> name el' <> "UploadId") :
  fst (initiateNewMultipartUpload ParseXml transport prm bucket key contentType)
  = Some (if String.eqb (content el) "" then Err (Msg noUploadId)
          else Ok (content el)).
Proof.
  destruct (initiate_unfolded ParseXml transport prm bucket key contentType)
    as (rp & _ & _ & _ & ->).
  cbn [fst]. rewrite Hanswer. cbn [fst snd].
  rewrite Hstatus, Hparsed, findUploadId_last by done. cbn.
  by destruct (String.eqb (content el) "").
Qed.

Lemma initiate_last_upload_id_wins_witness :
  fst (initiateNewMultipartUpload (SV := mockServices) mockParseXml
         openingTransport mockParams "bucket" "key" VNull)
  = Some (Ok "upload-1").
Proof.
  apply (initiate_last_upload_id_wins (SV := mockServices) mockParseXml
           openingTransport mockParams "bucket" "key" VNull
           {| statusCode := 200; headers_etag := VUndefined |} "id:upload-1"
           [ {| name := "Bucket"; content := "bucket" |} ]
           []
           {| name := "UploadId"; content := "upload-1" |}).
  - reflexivity.
  - reflexivity.
  - reflexivity.
  - reflexivity.
  - intros el' Hin. by apply elem_of_nil in Hin.
Defined.

(** X4. With a 200 answer whose parsed document has a root, and no child
    of that root is named UploadId, the call fails with the message
    'unable to get upload id', which is not what the error parser builds;
    with an answer that is not 200 the call fails with the parsed error,
    whatever the body holds; and with a 200 answer whose document has no
    root the call never calls back. *)
Theorem initiate_without_upload_id `{SV : Services}
    (ParseXml : string -> option (list xmlElement))
    (transport : bodyTransportT)
    (prm : params) (bucket key : string) (contentType : value)
    (resp : response) (xml : string)
    (Hanswer : forall rp body, transport rp body = (resp, xml)) :
  (statusCode resp = 200 ->
   forall children,
     ParseXml xml = Some children ->
     (forall el, el ∈ children -> name el <> "UploadId") ->
     fst (initiateNewMultipartUpload ParseXml transport prm bucket key
            contentType) = Some (Err (Msg noUploadId)))
  /\ (statusCode resp <> 200 ->
      fst (initiateNewMultipartUpload ParseXml transport prm bucket key
             contentType) = Some (Err (Domain (parseError resp))))
  /\ (statusCode resp = 200 -> ParseXml xml = None ->
      fst (initiateNewMultipartUpload ParseXml transport prm bucket key
             contentType) = None).
Proof.
  destruct (initiate_unfolded ParseXml transport prm bucket key contentType)
    as (rp & _ & _ & _ & ->).
  cbn [fst]. rewrite Hanswer. cbn [fst snd]. split_and!.
  - intros Hstatus children Hroot Hnone. rewrite Hstatus, Hroot. cbn.
    unfold findUploadId. by rewrite scan_others.
  - intros Hstatus.
    by destruct (Z.eqb_spec (statusCode resp) 200).
  - intros Hstatus Hroot. by rewrite Hstatus, Hroot.
Qed.

Lemma initiate_without_upload_id_witness :
  fst (initiateNewMultipartUpload (SV := mockServices) mockParseXml
         (fun _ _ => ({| statusCode := 200; headers_etag := VUndefined |},
                      "<Error/>"))
         mockParams "bucket" "key" VNull)
  = Some (Err (Msg noUploadId))
  /\ fst (initiateNewMultipartUpload (SV := mockServices) mockParseXml
            (fun _ _ => ({| statusCode := 200; headers_etag := VUndefined |},
                         ""))
            mockParams "bucket" "key" VNull)
     = None.
Proof.
  split.
  - apply (proj1 (initiate_without_upload_id (SV := mockServices)
                    mockParseXml
                    (fun _ _ => ({| statusCode := 200;
                                    headers_etag := VUndefined |},
                                 "<Error/>"))
                    mockParams "bucket" "key" VNull
                    {| statusCode := 200; headers_etag := VUndefined |}
                    "<Error/>" (fun _ _ => eq_refl))
             eq_refl
             [ {| name := "Bucket"; content := "bucket" |} ]).
    + reflexivity.
    + intros el Hin. apply list_elem_of_singleton in Hin. by subst el.
  - apply (proj2 (proj2 (initiate_without_upload_id (SV := mockServices)
                           mockParseXml
                           (fun _ _ => ({| statusCode := 200;
                                           headers_etag := VUndefined |},
                                        ""))
                           mockParams "bucket" "key" VNull
                           {| statusCode := 200; headers_etag := VUndefined |}
                           "" (fun _ _ => eq_refl)))).
    + reflexivity.
    + reflexivity.
Defined.

(** ** The orchestrator: what is sent and what is entered *)

Section UploadProvenance.
Context `{SV : Services}.
Variable transport : transportT.
Variable prm : params.
Variables bucket key : string.
Variable contentType : value.
Variable uploadId : string.
Variables partSize totalSize : Z.

Local Abbreviation stepCase :=
  (transformStep transport prm bucket key contentType uploadId
                 partSize totalSize).
Local Abbreviation faithful :=
  (uploadsFaithful transport prm bucket key contentType uploadId).

(** The trace only grows. *)
Lemma step_trace_grows (st st' : uploadState) (b : bytes) :
  stepCase st b st' -> forall ev, ev ∈ trace st -> ev ∈ trace st'.
Proof.
  intros [Herr | Hok Hshort Hexp | curJob rest Hok Hacc Hhead Hmatch
          | st1 tag wire Hok Hacc Hto Hput | st1 d wire Hok Hacc Hto Hput]
         ev Hin; cbn [trace latch pushEtag record shifted advance];
    try exact Hin;
    try (destruct (towardsUpload_facts _ _ _ Hto)
           as (_ & _ & _ & _ & _
               & [[Htr1 _] | (curJob & rest & _ & _ & Htr1)]);
         rewrite Htr1);
    repeat (apply elem_of_app; left); exact Hin.
Qed.

Lemma uploadsFaithful_step jobs0 (done : list bytes) (b : bytes)
    (st st' : uploadState) :
  counted jobs0 done st -> faithful done st -> stepCase st b st' ->
  faithful (done ++ [b]) st'.
Proof.
  intros (Hpart & _ & Hclean) Hfaith Hstep.
  assert (Hold : forall k data wire outcome,
             Uploaded k data wire outcome ∈ trace st ->
             1 <= k
             /\ (done ++ [b]) !! Z.to_nat (k - 1) = Some data
             /\ doPutObject transport prm bucket key contentType
                  (blockLength data) uploadId (VNum k) (bufferOf data)
                = (outcome, wire)).
  { intros k data wire outcome Hin.
    destruct (Hfaith k data wire outcome Hin) as (Hk & Hd & Hcall).
    split_and!; try done. by apply lookup_app_l_Some. }
  assert (Hnew : isErrored st = false ->
             (done ++ [b]) !! Z.to_nat (st_part st - 1) = Some b).
  { intros Hok. destruct (Hclean Hok) as (Hp & _).
    replace (Z.to_nat (st_part st - 1)) with (length done) by lia.
    by apply list_lookup_middle. }
  destruct Hstep
    as [Herr | Hok Hshort Hexp | curJob rest Hok Hacc Hhead Hmatch
        | st1 tag wire Hok Hacc Hto Hput | st1 d wire Hok Hacc Hto Hput];
    unfold uploadsFaithful; cbn [trace latch pushEtag record shifted advance];
    try exact Hold;
    try (destruct (towardsUpload_facts _ _ _ Hto)
          as (_ & _ & _ & _ & _
              & [[Htr1 _] | (curJob & rest & Hhead & _ & Htr1)]);
         rewrite Htr1);
    intros k data wire' outcome Hin;
    repeat (apply elem_of_app in Hin as [Hin | Hin]);
    try (by apply Hold);
    apply list_elem_of_singleton in Hin; try discriminate;
    injection Hin as -> -> -> ->;
    (split_and!; [lia | by apply Hnew | exact Hput]).
Qed.

Lemma entriesJustified_step (b : bytes) (st st' : uploadState) :
  entriesJustified st -> stepCase st b st' -> entriesJustified st'.
Proof.
  intros Hjust Hstep.
  pose proof (step_trace_grows st st' b Hstep) as Hgrows.
  assert (Hold : forall entry, entry ∈ etags st ->
             (exists curJob data,
                 Hashed (part entry) curJob data ∈ trace st'
                 /\ etag curJob = etag entry
                 /\ etag entry = VStr (md5Hex data))
             \/ (exists data wire,
                 Uploaded (part entry) data wire (Ok (etag entry))
                   ∈ trace st')).
  { intros entry Hin.
    destruct (Hjust entry Hin)
      as [(curJob & data & Hev & Htag & Hmd5) | (data & wire & Hev)].
    - left. exists curJob, data. split_and!; try done. by apply Hgrows.
    - right. exists data, wire. by apply Hgrows. }
  clear Hgrows.
  destruct Hstep
    as [Herr | Hok Hshort Hexp | curJob rest Hok Hacc Hhead Hmatch
        | st1 tag wire Hok Hacc Hto Hput | st1 d wire Hok Hacc Hto Hput];
    unfold entriesJustified; try exact Hold.
  - intros entry Hin. cbn [etags pushEtag record shifted advance] in Hin.
    apply elem_of_app in Hin as [Hin | Hin]; [by apply Hold |].
    apply list_elem_of_singleton in Hin. subst entry. left.
    exists curJob, b. cbn. split_and!; try done.
    apply elem_of_app. right. apply list_elem_of_here.
  - destruct (towardsUpload_facts _ _ _ Hto) as (_ & _ & Het1 & _).
    intros entry Hin. cbn [etags pushEtag record] in Hin.
    rewrite Het1 in Hin.
    apply elem_of_app in Hin as [Hin | Hin]; [by apply Hold |].
    apply list_elem_of_singleton in Hin. subst entry. right.
    exists b, wire. cbn.
    apply elem_of_app. right. apply list_elem_of_here.
  - destruct (towardsUpload_facts _ _ _ Hto) as (_ & _ & Het1 & _).
    intros entry Hin. cbn [etags latch record] in Hin.
    rewrite Het1 in Hin. by apply Hold.
Qed.

Lemma uploadedParts_snoc (tr : list upEvent) (ev : upEvent) :
  uploadedParts (tr ++ [ev])
  = uploadedParts tr ++ match ev with
                        | Uploaded k _ _ _ => [k]
                        | Hashed _ _ _ => []
                        end.
Proof. unfold uploadedParts. rewrite omap_app. by destruct ev. Qed.

Lemma towardsUpload_uploadedParts (st st1 : uploadState) (b : bytes) :
  towardsUpload st b st1 ->
  uploadedParts (trace st1) = uploadedParts (trace st).
Proof.
  intros Hto.
  destruct (towardsUpload_facts _ _ _ Hto)
    as (_ & _ & _ & _ & _ & [[-> _] | (curJob & rest & _ & _ & ->)]);
    [reflexivity |].
  rewrite uploadedParts_snoc. apply app_nil_r.
Qed.

Lemma ascending_snoc (parts : list Z) (bound : Z) :
  StronglySorted Z.lt parts ->
  (forall k, k ∈ parts -> k < bound) ->
  StronglySorted Z.lt (parts ++ [bound])
  /\ (forall k, k ∈ parts ++ [bound] -> k < bound + 1).
Proof.
  intros Hsorted Hbound. split.
  - apply StronglySorted_app_2; [| exact Hsorted | repeat constructor].
    intros x1 x2 Hx1 Hx2. apply list_elem_of_singleton in Hx2. subst x2.
    by apply Hbound.
  - intros k Hin. apply elem_of_app in Hin as [Hin | Hin].
    + specialize (Hbound k Hin). lia.
    + apply list_elem_of_singleton in Hin. lia.
Qed.

Lemma uploadsAscending_step (b : bytes) (st st' : uploadState) :
  uploadsAscending st -> stepCase st b st' -> uploadsAscending st'.
Proof.
  intros [Hsorted Hbound]
    [Herr | Hok Hshort Hexp | curJob rest Hok Hacc Hhead Hmatch
     | st1 tag wire Hok Hacc Hto Hput | st1 d wire Hok Hacc Hto Hput];
    unfold uploadsAscending;
    cbn [trace st_part latch pushEtag record shifted advance];
    try (by split).
  - rewrite uploadedParts_snoc, app_nil_r. split; [exact Hsorted |].
    intros k Hin. specialize (Hbound k Hin). lia.
  - destruct (towardsUpload_facts _ _ _ Hto) as (Hp1 & _).
    rewrite uploadedParts_snoc, (towardsUpload_uploadedParts _ _ _ Hto), Hp1.
    by apply ascending_snoc.
  - destruct (towardsUpload_facts _ _ _ Hto) as (Hp1 & _).
    rewrite uploadedParts_snoc, (towardsUpload_uploadedParts _ _ _ Hto), Hp1.
    by apply ascending_snoc.
Qed.

End UploadProvenance.

(** One call of [doPutObject] on a buffer of the declared length, for a
    part number that is not zero: the request, what is done with it, and
    what is called back. *)
Lemma doPutObject_exchange `{SV : Services} (transport : transportT)
    (prm : params) (bucket key : string) (contentType : value)
    (uploadId : string) (k : Z) (data : bytes) :
  k <> 0 ->
  exists rp,
    doPutObject transport prm bucket key contentType (blockLength data)
                uploadId (VNum k) (bufferOf data)
    = (let sha256 := toLowerCase (digest "sha256" "hex" data) in
       let signed := signV4 rp sha256 (accessKey prm) (secretKey prm) in
       (if negb (statusCode (transport signed data) =? 200)
        then Err (Domain (parseError (transport signed data)))
        else Ok (headers_etag (transport signed data)),
        [Signed rp sha256 (accessKey prm) (secretKey prm);
         Request signed data]))
    /\ method rp = "PUT"
    /\ path rp = "/" +:+ bucket +:+ "/" +:+ uriResourceEscape key
                     +:+ "?partNumber=" +:+ numberToString k
                     +:+ "&uploadId=" +:+ uploadId
    /\ headerOf "Content-Length" rp = Some (VNum (Z.of_nat (length data)))
    /\ headerOf "Content-MD5" rp = Some (VStr (digest "md5" "base64" data)).
Proof.
  intros Hk. unfold doPutObject, bufferOf, blockLength.
  cbn [failure chunks concat truthy toString].
  rewrite app_nil_r, Z.eqb_refl.
  destruct (Z.eqb_spec k 0) as [| _]; [contradiction |]. cbn [negb].
  eexists. split; [reflexivity |]. split_and!; reflexivity.
Qed.

(** ** Whole runs: success *)

Section StreamUploadSuccess.
Context `{SV : Services}.
Variable transport : transportT.
Variable prm : params.
Variables bucket key : string.
Variable contentType : value.
Variable uploadId : string.

Local Abbreviation upload :=
  (streamUpload transport prm bucket key contentType uploadId).
Local Abbreviation faithful :=
  (uploadsFaithful transport prm bucket key contentType uploadId).

(** The further invariants hold of the state every run ends in. *)
Lemma streamUpload_provenance (jobs0 : list partEntry) (totalSize : Z)
    (r : bytes) :
  let blocks := BlockStream2 (calculatePartSize totalSize) r in
  let st := snd (upload jobs0 totalSize r) in
  faithful blocks st /\ entriesJustified st /\ uploadsAscending st.
Proof.
  intros blocks st. subst st. unfold streamUpload. cbn [snd]. fold blocks.
  apply (run_invariant transport prm bucket key contentType uploadId _ _
           (fun done st =>
              counted jobs0 done st
              /\ (faithful done st /\ entriesJustified st
                  /\ uploadsAscending st))).
  - split; [apply initial_counted |]. split_and!.
    + intros k data wire outcome Hin. by apply elem_of_nil in Hin.
    + intros entry Hin. by apply elem_of_nil in Hin.
    + split; [constructor |]. intros k Hin. by apply elem_of_nil in Hin.
  - intros done b rest st st' _ (Hc & Hf & Hj & Ha) Hstep. split_and!.
    + by eapply counted_step.
    + by eapply uploadsFaithful_step.
    + by eapply entriesJustified_step.
    + eapply uploadsAscending_step; [exact Ha | exact Hstep].
Qed.

(** With the declared length right and a server that accepts every part,
    no block latches an error. *)
Lemma accepted_step_clean (jobs0 : list partEntry) (totalSize : Z) (r : bytes)
    (done : list bytes) (b : bytes) (rest : list bytes)
    (st st' : uploadState) :
  Z.of_nat (length r) = totalSize ->
  (forall rp body, statusCode (transport rp body) = 200) ->
  BlockStream2 (calculatePartSize totalSize) r = done ++ b :: rest ->
  counted jobs0 done st -> isErrored st = false ->
  transformStep transport prm bucket key contentType uploadId
                (calculatePartSize totalSize) totalSize st b st' ->
  isErrored st' = false.
Proof.
  intros Hlen Haccept Hsplit (Hpart & _ & Hclean) Hfine Hstep.
  destruct (Hclean Hfine) as (Hp & Hseen & _).
  pose proof (calculatePartSize_pos totalSize) as Hpos.
  destruct Hstep
    as [Herr | Hok Hshort Hexp | curJob rest' Hok Hacc Hhead Hmatch
        | st1 tag wire Hok Hacc Hto Hput | st1 d wire Hok Hacc Hto Hput].
  - congruence.
  - exfalso. apply Hexp.
    destruct (BlockStream2_blocks _ _ _ _ _ Hpos Hsplit) as [_ Hfull].
    destruct rest as [| b' rest]; [| unfold blockLength in Hshort;
                                     specialize (Hfull ltac:(done)); lia].
    pose proof (BlockStream2_concat _ r Hpos) as Hcat.
    rewrite Hsplit, concat_app in Hcat. cbn [concat] in Hcat.
    rewrite app_nil_r in Hcat.
    apply (f_equal length) in Hcat. rewrite length_app in Hcat.
    unfold blockLength. lia.
  - exact Hok.
  - destruct (towardsUpload_facts _ _ _ Hto) as (_ & Herr1 & _).
    unfold isErrored in *. cbn. by rewrite Herr1.
  - exfalso.
    destruct (doPutObject_exchange transport prm bucket key contentType
                uploadId (st_part st) b ltac:(lia)) as (rp & Hcall & _).
    rewrite Hcall in Hput. cbn zeta in Hput.
    rewrite Haccept in Hput. discriminate Hput.
Qed.

Lemma flush_clean (totalSize : Z) (st : uploadState) :
  isErrored st = false -> totalSeen st = totalSize ->
  flush totalSize st = Ok (etags st).
Proof.
  unfold flush, isErrored. intros Hfine ->.
  destruct (errored st) as [e |]; [rewrite Hfine |];
    by rewrite Z.eqb_refl.
Qed.

End StreamUploadSuccess.

(** X5. When the stream has exactly the declared length and the server
    answers 200 to every part, [streamUpload] succeeds, whatever the
    resume manifest holds: it returns a manifest with one entry per block,
    numbered 1, 2, ... in order. *)
Theorem streamUpload_succeeds `{SV : Services} (transport : transportT)
    (prm : params) (bucket key : string) (contentType : value)
    (uploadId : string) (jobs0 : list partEntry) (totalSize : Z) (r : bytes)
    (Hlen : Z.of_nat (length r) = totalSize)
    (Haccept : forall rp body, statusCode (transport rp body) = 200) :
  exists out,
    fst (streamUpload transport prm bucket key contentType uploadId
           jobs0 totalSize r) = Ok out
    /\ part <$> out
       = seqZ 1 (Z.of_nat (length (BlockStream2
                                     (calculatePartSize totalSize) r)))
    /\ noFailedUpload
         (trace (snd (streamUpload transport prm bucket key contentType
                        uploadId jobs0 totalSize r))).
Proof.
  pose proof (calculatePartSize_pos totalSize) as Hpos.
  assert (Hrun : let st := snd (streamUpload transport prm bucket key
                                  contentType uploadId jobs0 totalSize r) in
                 counted jobs0 (BlockStream2 (calculatePartSize totalSize) r) st
                 /\ isErrored st = false).
  { unfold streamUpload. cbn [snd].
    apply (run_invariant transport prm bucket key contentType uploadId _ _
             (fun done st => counted jobs0 done st /\ isErrored st = false)).
    - split; [apply initial_counted | reflexivity].
    - intros done b rest st st' Hsplit [Hc Hfine] Hstep. split.
      + by eapply counted_step.
      + by eapply accepted_step_clean. }
  destruct Hrun as [(_ & _ & Hclean) Hfine].
  destruct (Hclean Hfine) as (_ & Hseen & Hnum).
  rewrite BlockStream2_concat in Hseen by done.
  destruct (streamUpload_invariants transport prm bucket key contentType
              uploadId jobs0 totalSize r) as (_ & Hlatched & _).
  destruct (latched_clean _ Hlatched Hfine) as [_ Hnone].
  eexists. split_and!; [| exact Hnum | exact Hnone].
  unfold streamUpload in *. cbn [fst snd] in *.
  apply flush_clean; [exact Hfine | lia].
Qed.

Lemma streamUpload_succeeds_witness :
  exists out,
    fst (streamUpload (SV := mockServices) acceptingTransport mockParams
           "bucket" "key" VNull "upload-1" [] 3 sampleBlock) = Ok out
    /\ part <$> out = [1].
Proof.
  destruct (streamUpload_succeeds (SV := mockServices) acceptingTransport
              mockParams "bucket" "key" VNull "upload-1" [] 3 sampleBlock)
    as (out & Hok & Hnum & _).
  - reflexivity.
  - reflexivity.
  - exists out. split; [exact Hok | exact Hnum].
Defined.

(** X6. When [streamUpload] succeeds, the stream had exactly the declared
    length, the manifest has one entry per block, and the caller's resume
    array is left holding exactly the records beyond that many: records
    in excess of the number of parts are neither consulted nor reported. *)
Theorem success_leaves_unused_records `{SV : Services}
    (transport : transportT) (prm : params) (bucket key : string)
    (contentType : value) (uploadId : string) (jobs0 : list partEntry)
    (totalSize : Z) (r : bytes) (out : list partEntry)
    (Hok : fst (streamUpload transport prm bucket key contentType uploadId
                  jobs0 totalSize r) = Ok out) :
  let blocks := BlockStream2 (calculatePartSize totalSize) r in
  Z.of_nat (length r) = totalSize
  /\ length out = length blocks
  /\ partsArray (snd (streamUpload transport prm bucket key contentType
                        uploadId jobs0 totalSize r))
     = drop (length blocks) jobs0
  /\ (forall k curJob data,
        Hashed k curJob data
          ∈ trace (snd (streamUpload transport prm bucket key contentType
                          uploadId jobs0 totalSize r)) ->
        k <= Z.of_nat (length blocks)).
Proof.
  intros blocks.
  destruct (streamUpload_invariants transport prm bucket key contentType
              uploadId jobs0 totalSize r)
    as ((Hpart & Hjobs & Hclean) & _ & Hbound & _).
  subst blocks. unfold streamUpload in *. cbn [fst snd] in *.
  apply flush_ok in Hok as (Hfine & Hseen & ->).
  destruct (Hclean Hfine) as (Hp & Hseen' & Hnum).
  rewrite BlockStream2_concat in Hseen' by apply calculatePartSize_pos.
  split_and!.
  - lia.
  - apply (f_equal length) in Hnum.
    rewrite length_fmap, length_seqZ in Hnum. lia.
  - rewrite Hjobs. f_equal. lia.
  - intros k curJob data Hin. specialize (Hbound _ Hin). cbn in Hbound. lia.
Qed.

Lemma success_leaves_unused_records_witness :
  partsArray
    (snd (streamUpload (SV := mockServices) acceptingTransport mockParams
            "bucket" "key" VNull "upload-1"
            [storedPart 1 sampleBlock; storedPart 2 sampleBlock] 3
            sampleBlock))
  = [storedPart 2 sampleBlock].
Proof.
  apply (success_leaves_unused_records (SV := mockServices)
           acceptingTransport mockParams "bucket" "key" VNull "upload-1"
           [storedPart 1 sampleBlock; storedPart 2 sampleBlock] 3
           sampleBlock [storedPart 1 sampleBlock]).
  vm_compute. reflexivity.
Defined.

Lemma wireTrace_elem `{SV : Services} (tr : list upEvent) (k : Z)
    (data : bytes) (wire : list wireEvent)
    (outcome : result (error DomainError) value) (ev : wireEvent) :
  Uploaded k data wire outcome ∈ tr -> ev ∈ wire -> ev ∈ wireTrace tr.
Proof.
  intros Hin Hev. induction tr as [| first tr IH];
    [by apply elem_of_nil in Hin |].
  unfold wireTrace. cbn [map concat]. apply elem_of_app.
  apply elem_of_cons in Hin as [<- | Hin]; [by left | right].
  by apply IH.
Qed.

(** X7. Every entry of the manifest a successful run returns is accounted
    for: entry number i carries part number i and stands for block number
    i of the stream, and its tag is either the tag of resume record number
    i, which then is the lower-case hexadecimal MD5 of that block, or the
    etag header of a 200 response to a request whose body was that block. *)
Theorem manifest_entries_justified `{SV : Services} (transport : transportT)
    (prm : params) (bucket key : string) (contentType : value)
    (uploadId : string) (jobs0 : list partEntry) (totalSize : Z) (r : bytes)
    (out : list partEntry) (i : nat) (entry : partEntry)
    (Hok : fst (streamUpload transport prm bucket key contentType uploadId
                  jobs0 totalSize r) = Ok out)
    (Hentry : out !! i = Some entry) :
  part entry = Z.of_nat i + 1
  /\ exists data,
       BlockStream2 (calculatePartSize totalSize) r !! i = Some data
       /\ ((exists curJob,
              jobs0 !! i = Some curJob
              /\ etag entry = etag curJob
              /\ etag entry = VStr (md5Hex data))
           \/ (exists rp,
              Request rp data
                ∈ wireTrace (trace (snd (streamUpload transport prm bucket
                                           key contentType uploadId jobs0
                                           totalSize r)))
              /\ statusCode (transport rp data) = 200
              /\ etag entry = headers_etag (transport rp data))).
Proof.
  destruct (streamUpload_invariants transport prm bucket key contentType
              uploadId jobs0 totalSize r)
    as ((_ & _ & Hclean) & _ & _ & Hord & _).
  destruct (streamUpload_provenance transport prm bucket key contentType
              uploadId jobs0 totalSize r) as (Hfaith & Hjust & _).
  unfold streamUpload in *. cbn [fst snd] in *.
  apply flush_ok in Hok as (Hfine & _ & ->).
  destruct (Hclean Hfine) as (_ & _ & Hnum).
  assert (Hpart : part entry = Z.of_nat i + 1).
  { assert (Hlook : (part <$> etags
                       (processBlocks transport prm bucket key contentType
                          uploadId (calculatePartSize totalSize) totalSize
                          (initialState jobs0)
                          (BlockStream2 (calculatePartSize totalSize) r)))
                    !! i = Some (part entry))
      by (by rewrite list_lookup_fmap, Hentry).
    rewrite Hnum in Hlook. apply lookup_seqZ in Hlook. lia. }
  split; [exact Hpart |].
  assert (Hidx : Z.to_nat (part entry - 1) = i) by lia.
  destruct (Hjust entry (list_elem_of_lookup_2 _ _ _ Hentry))
    as [(curJob & data & Hev & Htag & Hmd5) | (data & wire & Hev)].
  - destruct (Hord _ _ _ Hev) as [Hjob Hdata]. rewrite Hidx in Hjob, Hdata.
    exists data. split; [exact Hdata |]. left. by exists curJob.
  - destruct (Hfaith _ _ _ _ Hev) as (Hk & Hdata & Hcall).
    rewrite Hidx in Hdata. exists data. split; [exact Hdata |]. right.
    destruct (doPutObject_exchange transport prm bucket key contentType
                uploadId (part entry) data ltac:(lia)) as (rp & Hex & _).
    rewrite Hex in Hcall. cbn zeta in Hcall.
    set (signed := signV4 rp (toLowerCase (digest "sha256" "hex" data))
                          (accessKey prm) (secretKey prm)) in *.
    destruct (Z.eqb_spec (statusCode (transport signed data)) 200)
      as [Hstatus | Hstatus]; cbn [negb] in Hcall; [| discriminate].
    injection Hcall as Htag <-.
    exists signed. split_and!; [| exact Hstatus | by symmetry].
    eapply wireTrace_elem; [exact Hev |].
    apply list_elem_of_further, list_elem_of_here.
Qed.

Lemma manifest_entries_justified_witness :
  exists data,
    BlockStream2 (calculatePartSize 3) sampleBlock !! 0%nat = Some data
    /\ ((exists curJob,
           [storedPart 1 sampleBlock] !! 0%nat = Some curJob
           /\ etag (storedPart 1 sampleBlock) = etag curJob
           /\ etag (storedPart 1 sampleBlock)
              = VStr (md5Hex (SV := mockServices) data))
        \/ (exists rp,
           Request rp data
             ∈ wireTrace
                 (trace (snd (streamUpload (SV := mockServices)
                                acceptingTransport mockParams "bucket" "key"
                                VNull "upload-1" [storedPart 1 sampleBlock]
                                3 sampleBlock)))
           /\ statusCode (acceptingTransport rp data) = 200
           /\ etag (storedPart 1 sampleBlock)
              = headers_etag (acceptingTransport rp data))).
Proof.
  apply (manifest_entries_justified (SV := mockServices) acceptingTransport
           mockParams "bucket" "key" VNull "upload-1"
           [storedPart 1 sampleBlock] 3 sampleBlock
           [storedPart 1 sampleBlock] 0 (storedPart 1 sampleBlock)).
  - vm_compute. reflexivity.
  - reflexivity.
Defined.

(** X8. In every run the calls of [doPutObject] go strictly up in part
    number, so no part is sent twice; the call for part k is made for
    block number k of the stream, its request addresses partNumber=k of
    the upload, declares the length of that block as Content-Length, and
    has exactly that block as its body. *)
Theorem uploads_in_order_once `{SV : Services} (transport : transportT)
    (prm : params) (bucket key : string) (contentType : value)
    (uploadId : string) (jobs0 : list partEntry) (totalSize : Z) (r : bytes) :
  let st := snd (streamUpload transport prm bucket key contentType uploadId
                              jobs0 totalSize r) in
  StronglySorted Z.lt (uploadedParts (trace st))
  /\ (forall k data wire outcome,
        Uploaded k data wire outcome ∈ trace st ->
        1 <= k
        /\ BlockStream2 (calculatePartSize totalSize) r !! Z.to_nat (k - 1)
           = Some data
        /\ exists rp h,
             wire = [Signed rp h (accessKey prm) (secretKey prm);
                     Request (signV4 rp h (accessKey prm) (secretKey prm))
                             data]
             /\ path rp = "/" +:+ bucket +:+ "/" +:+ uriResourceEscape key
                              +:+ "?partNumber=" +:+ numberToString k
                              +:+ "&uploadId=" +:+ uploadId
             /\ headerOf "Content-Length" rp
                = Some (VNum (Z.of_nat (length data)))).
Proof.
  intros st.
  destruct (streamUpload_provenance transport prm bucket key contentType
              uploadId jobs0 totalSize r) as (Hfaith & _ & Hsorted & _).
  split; [exact Hsorted |].
  intros k data wire outcome Hin.
  destruct (Hfaith _ _ _ _ Hin) as (Hk & Hdata & Hcall).
  split_and!; [exact Hk | exact Hdata |].
  destruct (doPutObject_exchange transport prm bucket key contentType
              uploadId k data ltac:(lia))
    as (rp & Hex & _ & Hpath & Hlen & _).
  rewrite Hex in Hcall. cbn zeta in Hcall. injection Hcall as _ <-.
  by exists rp, (toLowerCase (digest "sha256" "hex" data)).
Qed.

(** ** How many parts *)

(** The number of blocks is the length divided by the block size,
    rounded up. *)
Lemma BlockStream2_count (size : Z) (l : bytes) :
  0 < size ->
  Z.of_nat (length (BlockStream2 size l))
  = (Z.of_nat (length l) + size - 1) / size.
Proof.
  intros Hsize. revert l.
  apply (induction_ltof1 _ (@length Byte.byte)). intros l IH.
  unfold ltof in IH.
  destruct (Z_le_gt_dec size (Z.of_nat (length l))) as [Hfull | Hshort].
  - rewrite BlockStream2_full by done. cbn [length].
    rewrite Nat2Z.inj_succ, IH by (rewrite length_drop; lia).
    rewrite length_drop.
    replace (Z.of_nat (length l) + size - 1)
      with ((Z.of_nat (length l - Z.to_nat size) + size - 1) + 1 * size)
      by lia.
    rewrite Z.div_add by lia. lia.
  - destruct l as [| c l].
    + rewrite BlockStream2_nil by done. cbn [length].
      symmetry. apply Z.div_small. lia.
    + rewrite BlockStream2_short by (done || lia). cbn [length] in *.
      apply Z.div_unique with (r := Z.of_nat (S (length l)) - 1); lia.
Qed.

(** X9. For a stream of the declared length S whose candidate part size
    floor(S/9999) does not exceed the ceiling, [streamUpload] cuts the
    stream into at most 10000 parts, and into at least one part when the
    stream is not empty. *)
Theorem part_count_bounded (S : Z) (r : bytes)
    (Hlen : Z.of_nat (length r) = S)
    (Hfits : S / 9999 <= maximumPartSize) :
  Z.of_nat (length (BlockStream2 (calculatePartSize S) r)) <= 10000
  /\ (0 < S -> 1 <= Z.of_nat (length (BlockStream2 (calculatePartSize S) r))).
Proof.
  pose proof (calculatePartSize_pos S) as Hpos.
  assert (HS : 0 <= S) by lia.
  rewrite BlockStream2_count, Hlen by done.
  assert (Hsize : S / 9999 <= calculatePartSize S
                  /\ minimumPartSize <= calculatePartSize S).
  { unfold calculatePartSize.
    destruct (Z.ltb_spec maximumPartSize (S / 9999)); lia. }
  destruct Hsize as [Hq Hmin]. unfold minimumPartSize in Hmin.
  pose proof (Z.div_mod S 9999 ltac:(lia)) as Hdiv.
  pose proof (Z.mod_pos_bound S 9999 ltac:(lia)) as Hmod.
  split.
  - apply Z.lt_succ_r. apply Z.div_lt_upper_bound; lia.
  - intros Hnonempty. apply Z.div_le_lower_bound; lia.
Qed.

Lemma part_count_bounded_witness :
  Z.of_nat (length (BlockStream2 (calculatePartSize 3) sampleBlock)) <= 10000.
Proof.
  apply (part_count_bounded 3 sampleBlock); [reflexivity |].
  vm_compute. discriminate.
Defined.

(** X10. The part size never shrinks when the object grows, and the part
    size times 10000 covers every object whose candidate does not exceed
    the ceiling. *)
Theorem calculatePartSize_monotone (S1 S2 : Z) (Hle : S1 <= S2) :
  calculatePartSize S1 <= calculatePartSize S2
  /\ (0 <= S2 -> S2 / 9999 <= maximumPartSize ->
      S2 <= 10000 * calculatePartSize S2).
Proof.
  assert (Hdiv : S1 / 9999 <= S2 / 9999) by (apply Z.div_le_mono; lia).
  unfold calculatePartSize, maximumPartSize, minimumPartSize in *. split.
  - destruct (Z.ltb_spec (5 * 1025 * 1024 * 1024) (S1 / 9999));
      destruct (Z.ltb_spec (5 * 1025 * 1024 * 1024) (S2 / 9999)); lia.
  - intros HS Hfits.
    pose proof (Z.div_mod S2 9999 ltac:(lia)) as Hdm.
    pose proof (Z.mod_pos_bound S2 9999 ltac:(lia)) as Hmod.
    destruct (Z.ltb_spec (5 * 1025 * 1024 * 1024) (S2 / 9999)); lia.
Qed.

Lemma calculatePartSize_monotone_witness :
  calculatePartSize 3 <= calculatePartSize 11534336.
Proof. apply (calculatePartSize_monotone 3 11534336). lia. Defined.

(** X11. Once the candidate floor(S/9999) is between the floor and the
    ceiling, it is the part size, and a stream of the declared length S is
    cut into 9999 parts when S is a multiple of 9999 and into 10000 parts
    otherwise. *)
Theorem part_count_large_object (S : Z) (r : bytes)
    (Hlen : Z.of_nat (length r) = S)
    (Hfloor : minimumPartSize <= S / 9999)
    (Hceiling : S / 9999 <= maximumPartSize) :
  calculatePartSize S = S / 9999
  /\ Z.of_nat (length (BlockStream2 (calculatePartSize S) r))
     = if S mod 9999 =? 0 then 9999 else 10000.
Proof.
  assert (Hsize : calculatePartSize S = S / 9999).
  { unfold calculatePartSize.
    destruct (Z.ltb_spec maximumPartSize (S / 9999)); lia. }
  split; [exact Hsize |].
  rewrite BlockStream2_count, Hlen, Hsize
    by (rewrite Hsize; unfold minimumPartSize in Hfloor; lia).
  unfold minimumPartSize in Hfloor.
  pose proof (Z.div_mod S 9999 ltac:(lia)) as Hdiv.
  pose proof (Z.mod_pos_bound S 9999 ltac:(lia)) as Hmod.
  destruct (Z.eqb_spec (S mod 9999) 0) as [Hzero | Hrest]; symmetry.
  - apply Z.div_unique with (r := S / 9999 - 1); lia.
  - apply Z.div_unique with (r := S mod 9999 - 1); lia.
Qed.

Lemma part_count_large_object_witness :
  Z.of_nat (length (BlockStream2
                      (calculatePartSize (9999 * minimumPartSize + 1))
                      (replicate (Z.to_nat (9999 * minimumPartSize + 1))
                                 Byte.x00)))
  = 10000.
Proof.
  assert (Hlen : Z.of_nat (length (replicate
                                     (Z.to_nat (9999 * minimumPartSize + 1))
                                     Byte.x00))
                 = 9999 * minimumPartSize + 1).
  { rewrite length_replicate. apply Z2Nat.id. unfold minimumPartSize. lia. }
  destruct (part_count_large_object (9999 * minimumPartSize + 1)
              (replicate (Z.to_nat (9999 * minimumPartSize + 1)) Byte.x00)
              Hlen) as [_ Hcount].
  - vm_compute. discriminate.
  - vm_compute. discriminate.
  - exact Hcount.
Defined.

(** ** What the uploader and the finalizer report *)

(** X12. [doPutObject] calls back an entity tag only when the stream ended
    without error, the buffer had the declared length, exactly one request
    was sent with the whole buffer as its body, and the response to it had
    status 200; the tag is the etag header of that response. *)
Theorem doPutObject_tag_only_on_200 `{SV : Services} (transport : transportT)
    (prm : params) (bucket key : string) (contentType : value) (size : Z)
    (uploadId : string) (part : value) (r : readable) (tag : value)
    (Hok : fst (doPutObject transport prm bucket key contentType size
                  uploadId part r) = Ok tag) :
  failure r = None
  /\ Z.of_nat (length (concat (chunks r))) = size
  /\ exists rp0 h rp,
       snd (doPutObject transport prm bucket key contentType size
              uploadId part r)
       = [Signed rp0 h (accessKey prm) (secretKey prm);
          Request rp (concat (chunks r))]
       /\ rp = signV4 rp0 h (accessKey prm) (secretKey prm)
       /\ statusCode (transport rp (concat (chunks r))) = 200
       /\ tag = headers_etag (transport rp (concat (chunks r))).
Proof.
  unfold doPutObject in *.
  destruct (failure r) as [e |]; [discriminate |].
  destruct (Z.eqb_spec (Z.of_nat (length (concat (chunks r)))) size)
    as [Hsize | Hsize]; cbn [negb fst snd] in *; [| discriminate].
  match type of Hok with
  | (if negb (statusCode ?resp =? 200) then _ else _) = _ =>
      destruct (Z.eqb_spec (statusCode resp) 200) as [Hstatus | Hstatus]
  end; cbn [negb] in Hok; [| discriminate].
  injection Hok as <-.
  split_and!; try done. eexists _, _, _. split_and!; try reflexivity.
  exact Hstatus.
Qed.

Lemma doPutObject_tag_only_on_200_witness :
  Z.of_nat (length (concat (chunks (bufferOf (SV := mockServices)
                                             sampleBlock)))) = 3.
Proof.
  apply (doPutObject_tag_only_on_200 (SV := mockServices) acceptingTransport
           mockParams "bucket" "key" VNull 3 "upload-1" (VNum 1)
           (bufferOf sampleBlock) (VStr "etag-from-server")).
  reflexivity.
Defined.

(** X13. [completeMultipartUpload] sends exactly one request whatever the
    manifest holds, an empty manifest included: a POST to
    /bucket/escaped-key?uploadId=id without headers of its own, whose body
    is the serialized document and which is signed with the lower-case
    hexadecimal SHA-256 of that same body.  It reports success exactly
    when the response has status 200, and the parsed error otherwise. *)
Theorem completeMultipartUpload_outcome `{SV : Services}
    (transport : transportT) (prm : params) (bucket key uploadId : string)
    (etags : list partEntry) :
  exists rp body signed,
    snd (completeMultipartUpload transport prm bucket key uploadId etags)
    = [Signed rp (toLowerCase (digest "sha256" "hex" body))
              (accessKey prm) (secretKey prm);
       Request signed body]
    /\ signed = signV4 rp (toLowerCase (digest "sha256" "hex" body))
                       (accessKey prm) (secretKey prm)
    /\ body = String.list_byte_of_string (Xml (payloadObject etags))
    /\ method rp = "POST"
    /\ path rp = "/" +:+ bucket +:+ "/" +:+ uriResourceEscape key
                     +:+ "?uploadId=" +:+ uploadId
    /\ headers rp = None
    /\ (fst (completeMultipartUpload transport prm bucket key uploadId etags)
        = Ok tt <-> statusCode (transport signed body) = 200)
    /\ (statusCode (transport signed body) <> 200 ->
        fst (completeMultipartUpload transport prm bucket key uploadId etags)
        = Err (Domain (parseError (transport signed body)))).
Proof.
  unfold completeMultipartUpload. cbn [fst snd].
  eexists _, _, _. split; [reflexivity |].
  split_and!; try reflexivity.
  - split.
    + intros Hok.
      match type of Hok with
      | (if negb (statusCode ?resp =? 200) then _ else _) = _ =>
          by destruct (Z.eqb_spec (statusCode resp) 200)
      end.
    + intros ->. reflexivity.
  - intros Hstatus.
    match goal with
    | |- (if negb (statusCode ?resp =? 200) then _ else _) = _ =>
        by destruct (Z.eqb_spec (statusCode resp) 200)
    end.
Qed.

Lemma streamUpload_document_ascending_witness :
  documentPartNumbers (payloadObject [storedPart 1 sampleBlock]) = [VNum 1].
Proof.
  apply (streamUpload_document_ascending (SV := mockServices)
           rejectingTransport mockParams "bucket" "key" VNull "upload-1"
           [storedPart 1 sampleBlock] 3 sampleBlock
           [storedPart 1 sampleBlock]).
  vm_compute. reflexivity.
Defined.

Lemma uploads_in_order_once_witness :
  1 <= 1
  /\ BlockStream2 (calculatePartSize 3) sampleBlock !! Z.to_nat (1 - 1)
     = Some sampleBlock.
Proof.
  destruct (uploads_in_order_once (SV := mockServices) acceptingTransport
              mockParams "bucket" "key" VNull "upload-1" [] 3 sampleBlock)
    as [_ Hcalls].
  destruct (Hcalls 1 sampleBlock
              (snd (doPutObject (SV := mockServices) acceptingTransport
                      mockParams "bucket" "key" VNull 3 "upload-1" (VNum 1)
                      (bufferOf sampleBlock)))
              (Ok (VStr "etag-from-server")))
    as (Hk & Hblock & _).
  - vm_compute. apply list_elem_of_here.
  - split; [exact Hk | exact Hblock].
Defined.

(** ** Addressing parts *)

Lemma numberToString_inj (n1 n2 : Z) :
  numberToString n1 = numberToString n2 -> n1 = n2.
Proof.
  unfold numberToString. intros Heq.
  assert (Hgood : forall n, Z.to_int n <> Decimal.Pos Decimal.Nil
                            /\ Z.to_int n <> Decimal.Neg Decimal.Nil).
  { intros [| p | p]; cbn; split; try discriminate;
      intros [= Hnil]; by apply DecimalPos.Unsigned.to_uint_nonnil in Hnil. }
  apply (f_equal NilZero.int_of_string) in Heq.
  rewrite !NilZero.isi in Heq by apply Hgood.
  injection Heq as Heq. apply (f_equal Z.of_int) in Heq.
  by rewrite !DecimalZ.of_to in Heq.
Qed.

Lemma append_inv_l (s a b : string) : s +:+ a = s +:+ b -> a = b.
Proof.
  induction s as [| c s IH]; [done |].
  intros Heq. apply IH. by injection Heq.
Qed.

Lemma length_append (a b : string) :
  String.length (a +:+ b) = (String.length a + String.length b)%nat.
Proof. induction a as [| c a IH]; [done |]. cbn. by rewrite <- IH. Qed.

Lemma append_inv_r (a b t : string) : a +:+ t = b +:+ t -> a = b.
Proof.
  revert b. induction a as [| c a IH]; intros [| c' b] Heq.
  - reflexivity.
  - apply (f_equal String.length) in Heq.
    change (String c' b +:+ t) with (String c' (b +:+ t)) in Heq.
    cbn in Heq. rewrite ?length_append in Heq. cbn in Heq. lia.
  - apply (f_equal String.length) in Heq.
    change (String c a +:+ t) with (String c (a +:+ t)) in Heq.
    cbn in Heq. rewrite ?length_append in Heq. cbn in Heq. lia.
  - change (String c (a +:+ t) = String c' (b +:+ t)) in Heq.
    injection Heq as -> Heq. f_equal. by apply IH.
Qed.

(** X15. For one bucket, key and upload id, the requests [doPutObject]
    builds for two part numbers that are not zero have the same path only
    when the part numbers are the same: no two parts of an upload are
    addressed alike. *)
Theorem part_paths_distinct `{SV : Services} (transport : transportT)
    (prm : params) (bucket key : string) (contentType1 contentType2 : value)
    (uploadId : string) (k1 k2 : Z) (data1 data2 : bytes)
    (rp1 rp2 : requestParams)
    (Hk1 : k1 <> 0) (Hk2 : k2 <> 0)
    (Hrp1 : builtRequest
              (snd (doPutObject transport prm bucket key contentType1
                      (Z.of_nat (length data1)) uploadId (VNum k1)
                      (bufferOf data1))) = Some rp1)
    (Hrp2 : builtRequest
              (snd (doPutObject transport prm bucket key contentType2
                      (Z.of_nat (length data2)) uploadId (VNum k2)
                      (bufferOf data2))) = Some rp2)
    (Hpath : path rp1 = path rp2) :
  k1 = k2.
Proof.
  destruct (doPutObject_exchange transport prm bucket key contentType1
              uploadId k1 data1 Hk1) as (rp1' & Hex1 & _ & Hpath1 & _).
  destruct (doPutObject_exchange transport prm bucket key contentType2
              uploadId k2 data2 Hk2) as (rp2' & Hex2 & _ & Hpath2 & _).
  unfold blockLength in Hex1, Hex2.
  rewrite Hex1 in Hrp1. rewrite Hex2 in Hrp2.
  cbn in Hrp1, Hrp2. injection Hrp1 as <-. injection Hrp2 as <-.
  rewrite Hpath1, Hpath2 in Hpath.
  do 5 apply append_inv_l in Hpath.
  apply append_inv_r in Hpath. by apply numberToString_inj.
Qed.

Lemma part_paths_distinct_witness : 2 = 2.
Proof.
  eapply (part_paths_distinct (SV := mockServices) acceptingTransport
            mockParams "bucket" "key" VNull (VStr "text/plain") "upload-1"
            2 2 sampleBlock [Byte.x61]).
  - lia.
  - lia.
  - reflexivity.
  - reflexivity.
  - reflexivity.
Defined.

(** ** The blocks of a stream *)

(** X16. The blocks [streamUpload] feeds to its per-part step, taken in
    order, are the stream: concatenated they give back its bytes, none is
    empty, none is longer than the part size, and every block but the
    last has exactly the part size. *)
Theorem stream_blocks_shape (totalSize : Z) (r : bytes) :
  let partSize := calculatePartSize totalSize in
  let blocks := BlockStream2 partSize r in
  concat blocks = r
  /\ (forall (i : nat) (b : bytes),
        blocks !! i = Some b ->
        0 < Z.of_nat (length b) <= partSize
        /\ ((S i < length blocks)%nat -> Z.of_nat (length b) = partSize)).
Proof.
  intros partSize blocks.
  pose proof (calculatePartSize_pos totalSize) as Hpos.
  split; [by apply BlockStream2_concat |].
  intros i b Hlook.
  destruct (BlockStream2_blocks partSize r (take i blocks) b
              (drop (S i) blocks) Hpos) as [Hlen Hfull].
  { symmetry. by apply take_drop_middle. }
  split; [exact Hlen |].
  intros Hmore. apply Hfull. intros Hnil.
  apply (f_equal length) in Hnil. rewrite length_drop in Hnil.
  cbn in Hnil. lia.
Qed.
